(** * AudioWeaver: the document-to-audio processing pipeline

    A shallow embedding of the server-side job pipeline
    ([server/routes.ts], [server/storage.ts], [server/lib/gemini-api.ts],
    [server/lib/elevenlabs-api.ts]) and of the client status poller
    ([client/src/components/processing-section.tsx]).

    Conventions of the embedding.
    - A JavaScript string is the list of its UTF-16 code units.
    - A drizzle table is the list of its rows together with the next value
      of its [serial] key; [select ... where] is [filter], the array
      destructuring [const [x] = rows] is [head].
    - An asynchronous function is a computation over the [World] that
      settles to a value or to the [message] of the [Error] it throws, and
      records the steps an observer can see.
    - The three external services (PDF text extraction, Gemini,
      ElevenLabs), the environment variables and [UPLOADS_DIR] are the
      fields of a [Services] record; a service is a total function giving
      a result or the message of the error it raises.
    - The relational store and the file system do not fail, and the
      clock does not advance during a run. *)

From Stdlib Require Import ZArith NArith Ascii String DecimalString.
From Stdlib.Strings Require Import Byte.
From stdpp Require Import base option list gmap.

Local Open Scope N_scope.
Local Open Scope list_scope.

(** ** JavaScript strings *)

Module JS.

Abbreviation jsstring := (list N).

(** A literal of the source, written with Rocq's string notation. *)
Definition lit (s : string) : jsstring :=
  List.map N_of_ascii (list_ascii_of_string s).

Definition nl : jsstring := [10].

(** [WhiteSpace] and [LineTerminator] of ECMAScript: what [String.prototype.trim]
    removes and what the regular-expression class [\s] matches. *)
Definition is_space (c : N) : bool :=
  (c =? 9) || (c =? 10) || (c =? 11) || (c =? 12) || (c =? 13) || (c =? 32)
  || (c =? 160) || (c =? 5760) || ((8192 <=? c) && (c <=? 8202))
  || (c =? 8232) || (c =? 8233) || (c =? 8239) || (c =? 8287)
  || (c =? 12288) || (c =? 65279).

Fixpoint skip_space (s : jsstring) : jsstring :=
  match s with
  | c :: s' => if is_space c then skip_space s' else s
  | [] => []
  end.

(** [s.trim()] *)
Definition trim (s : jsstring) : jsstring :=
  rev (skip_space (rev (skip_space s))).

(** [s.split(sep)] for a one-character separator: never the empty array. *)
Fixpoint split (sep : N) (s : jsstring) : list jsstring :=
  match s with
  | [] => [[]]
  | c :: s' =>
      if c =? sep then [] :: split sep s'
      else match split sep s' with
           | l :: ls => (c :: l) :: ls
           | [] => [[c]]
           end
  end.

(** [s.substring(0, n)] *)
Definition substring0 (n : nat) (s : jsstring) : jsstring := take n s.

(** Truthiness of a string: the empty string is falsy. *)
Definition truthy (s : jsstring) : bool :=
  match s with [] => false | _ => true end.

(** Truthiness of [string | undefined | null]. *)
Definition truthy_opt (s : option jsstring) : bool :=
  match s with Some s => truthy s | None => false end.

(** [a || b] on [string | undefined]. *)
Definition or_else (a b : option jsstring) : option jsstring :=
  if truthy_opt a then a else b.



(** Decimal rendering of a non-negative integer, as in a template literal. *)
Definition of_N (n : N) : jsstring :=
  lit (NilEmpty.string_of_uint (N.to_uint n)).

End JS.

Import JS.

(** ** gemini-api.ts: title and description of a generated narrative *)

Record SummaryResult := {
  sr_title : jsstring;
  sr_description : jsstring;
  sr_text : jsstring
}.

(** [line => line.trim().length > 0] *)
Definition nonblank (line : jsstring) : bool :=
  bool_decide (0 < length (trim line))%nat.

(** [text.split('\n').filter(line => line.trim().length > 0)] *)
Definition summary_lines (text : jsstring) : list jsstring :=
  List.filter nonblank (split 10 text).

(** [line.replace(/^#\s*/, '')] *)
Definition strip_heading (line : jsstring) : jsstring :=
  match line with
  | c :: rest => if c =? 35 then skip_space rest else line
  | [] => line
  end.

(** The [for (let i = 1; ...)] loop over [lines], from the index it has
    reached, with its flag [foundFirstParagraph] and the initial
    [description = ""]. *)
Fixpoint description_loop (rest : list jsstring) (foundFirstParagraph : bool)
  : jsstring :=
  match rest with
  | [] => []
  | line :: rest' =>
      if bool_decide (0 < length (trim line))%nat then
        if negb foundFirstParagraph then description_loop rest' true
        else line
      else description_loop rest' foundFirstParagraph
  end.

Definition default_title : jsstring := lit "Document Summary".
Definition default_description : jsstring :=
  lit "An AI-generated summary of the uploaded documents.".

(** The part of [generateSummary] after [response.text()]. *)
Definition extract_title_description (text : jsstring) : SummaryResult :=
  let lines := summary_lines text in
  let title :=
    match lines with
    | l0 :: _ => strip_heading l0
    | [] => default_title
    end in
  let description := description_loop (drop 1 lines) false in
  let description :=
    if negb (truthy description) then default_description else description in
  let description :=
    if bool_decide (200 < length description)%nat
    then substring0 197 description ++ lit "..."
    else description in
  {| sr_title := title; sr_description := description; sr_text := text |}.


(** ** shared/schema.ts: rows of the tables *)

(** A JSON value, for request bodies and [jsonb] columns. An object lists
    each of its keys once. Numbers are modelled by the integers. *)
#[local] Unset Elimination Schemes.
Inductive Json :=
| JNull
| JBool (b : bool)
| JNum (n : Z)
| JStr (s : jsstring)
| JArr (items : list Json)
| JObj (fields : list (jsstring * Json)).
#[local] Set Elimination Schemes.

(** The values the code writes to [processing_jobs.status]. *)
Inductive Status :=
| pending | processing | summarizing | converting | completed | error.

#[global] Instance Status_eq_dec : EqDecision Status.
Proof. solve_decision. Defined.

Definition status_name (s : Status) : jsstring :=
  match s with
  | pending => lit "pending"
  | processing => lit "processing"
  | summarizing => lit "summarizing"
  | converting => lit "converting"
  | completed => lit "completed"
  | error => lit "error"
  end.

Record UserContext := {
  question : option jsstring;
  knowledge : option jsstring;
  interest : option jsstring;
  conversation : option jsstring
}.

Record ApiKey := {
  key_id : Z;
  key_gemini : jsstring;
  key_elevenlabs : jsstring;
  key_createdAt : N
}.

Record InsertApiKey := {
  ins_gemini : jsstring;
  ins_elevenlabs : jsstring
}.

Record Upload := {
  up_id : Z;
  up_filename : jsstring;
  up_filepath : jsstring;
  up_size : Z;
  up_createdAt : N
}.

Record ProcessingJob := {
  job_id : Z;
  job_status : Status;
  job_progress : Z;
  job_uploadIds : Json;
  job_context : option UserContext;
  job_error : option jsstring;
  job_createdAt : N;
  job_completedAt : option N
}.

Record InsertProcessingJob := {
  ins_uploadIds : Json;
  ins_context : option UserContext
}.

(** [Partial<ProcessingJob>], with the fields the routes ever set. *)
Record JobUpdates := {
  set_status : option Status;
  set_progress : option Z;
  set_error : option jsstring;
  set_completedAt : option N
}.

Record Summary := {
  sum_id : Z;
  sum_title : jsstring;
  sum_description : jsstring;
  sum_text : jsstring;
  sum_audioUrl : jsstring;
  sum_processingJobId : Z;
  sum_createdAt : N
}.

Record InsertSummary := {
  ins_title : jsstring;
  ins_description : jsstring;
  ins_text : jsstring;
  ins_audioUrl : jsstring;
  ins_processingJobId : Z
}.

(** The database: each table with the next value of its serial key. *)
Record Db := {
  apiKeys : list ApiKey;
  apiKeys_seq : Z;
  uploads : list Upload;
  processingJobs : list ProcessingJob;
  processingJobs_seq : Z;
  summaries : list Summary;
  summaries_seq : Z
}.

(** ** The world and the monad of asynchronous functions *)

(** What a run does that an observer can see: the writes to the job and
    summary tables, each with the database it leaves, the files written,
    and the calls to the two generative services. *)
Inductive Step :=
| StCreateJob (job : ProcessingJob) (after : Db)
| StUpdateJob (id : Z) (updates : JobUpdates) (after : Db)
| StCreateSummary (summary : Summary) (after : Db)
| StWriteFile (path : jsstring) (data : list byte)
| StGenerateContent (apiKey prompt : jsstring)
| StTextToSpeech (text outputPath apiKey : jsstring).

Record World := {
  db : Db;
  files : gmap jsstring (list byte);
  clock : N
}.

(** A settled promise: fulfilled with a value or rejected with the message
    of an [Error]. *)
Inductive Outcome (A : Type) :=
| Return (a : A)
| Throw (message : jsstring).
Arguments Return {A} a.
Arguments Throw {A} message.

Record Result (A : Type) := mkResult {
  outcome : Outcome A;
  final : World;
  trace : list Step
}.
Arguments mkResult {A}.
Arguments outcome {A}.
Arguments final {A}.
Arguments trace {A}.

Definition M (A : Type) : Type := World -> Result A.

Definition ret {A} (a : A) : M A := fun w => mkResult (Return a) w [].

Definition throw {A} (message : jsstring) : M A :=
  fun w => mkResult (Throw message) w [].

Definition bind {A B} (m : M A) (k : A -> M B) : M B := fun w =>
  let r := m w in
  match outcome r with
  | Return a =>
      let r' := k a (final r) in
      mkResult (outcome r') (final r') (trace r ++ trace r')
  | Throw e => mkResult (Throw e) (final r) (trace r)
  end.

(** [try { m } catch (error) { handler(error.message) }] *)
Definition try_catch {A} (m : M A) (handler : jsstring -> M A) : M A := fun w =>
  let r := m w in
  match outcome r with
  | Return a => r
  | Throw e =>
      let r' := handler e (final r) in
      mkResult (outcome r') (final r') (trace r ++ trace r')
  end.

Definition get_world : M World := fun w => mkResult (Return w) w [].

Definition with_db (w : World) (d : Db) : World :=
  {| db := d; files := files w; clock := clock w |}.

Definition with_file (w : World) (path : jsstring) (data : list byte)
  : World :=
  {| db := db w; files := <[path := data]> (files w); clock := clock w |}.

Definition put_db (d : Db) : M unit := fun w =>
  mkResult (Return tt) (with_db w d) [].

Definition emit (s : Step) : M unit := fun w => mkResult (Return tt) w [s].

(** An external service: its settled result does not touch the world. *)
Definition await {A} (o : Outcome A) : M A := fun w => mkResult o w [].

Declare Scope async_scope.
Delimit Scope async_scope with async.
Notation "x <- m ;; k" := (bind m (fun x => k))
  (at level 100, m at next level, right associativity) : async_scope.
Notation "m ;; k" := (bind m (fun _ => k))
  (at level 100, right associativity) : async_scope.
Local Open Scope async_scope.

(** ** server/storage.ts *)

Module Storage.

(** *** The statements, as functions on the database *)

(** [db.delete(apiKeys)] *)
Definition delete_apiKeys (d : Db) : Db :=
  {| apiKeys := []; apiKeys_seq := apiKeys_seq d;
     uploads := uploads d;
     processingJobs := processingJobs d;
     processingJobs_seq := processingJobs_seq d;
     summaries := summaries d; summaries_seq := summaries_seq d |}.

(** The row that [db.insert(apiKeys).values(keys)] adds at time [now]. *)
Definition new_apiKey (keys : InsertApiKey) (now : N) (d : Db) : ApiKey :=
  {| key_id := apiKeys_seq d;
     key_gemini := ins_gemini keys;
     key_elevenlabs := ins_elevenlabs keys;
     key_createdAt := now |}.

Definition insert_apiKey (row : ApiKey) (d : Db) : Db :=
  {| apiKeys := apiKeys d ++ [row]; apiKeys_seq := apiKeys_seq d + 1;
     uploads := uploads d;
     processingJobs := processingJobs d;
     processingJobs_seq := processingJobs_seq d;
     summaries := summaries d; summaries_seq := summaries_seq d |}.

(** [select().from(uploads).where(eq(uploads.id, id))], first row. *)
Definition select_upload (d : Db) (id : Z) : option Upload :=
  head (List.filter (fun u => Z.eqb (up_id u) id) (uploads d)).

(** The row that [db.insert(processingJobs).values({...insertJob,
    status: "pending", progress: 0})] adds at time [now]. *)
Definition new_job (insertJob : InsertProcessingJob) (now : N) (d : Db)
  : ProcessingJob :=
  {| job_id := processingJobs_seq d;
     job_status := pending;
     job_progress := 0;
     job_uploadIds := ins_uploadIds insertJob;
     job_context := ins_context insertJob;
     job_error := None;
     job_createdAt := now;
     job_completedAt := None |}.

Definition insert_job (row : ProcessingJob) (d : Db) : Db :=
  {| apiKeys := apiKeys d; apiKeys_seq := apiKeys_seq d;
     uploads := uploads d;
     processingJobs := processingJobs d ++ [row];
     processingJobs_seq := processingJobs_seq d + 1;
     summaries := summaries d; summaries_seq := summaries_seq d |}.

(** [select().from(processingJobs).where(eq(processingJobs.id, id))],
    first row. *)
Definition select_job (d : Db) (id : Z) : option ProcessingJob :=
  head (List.filter (fun j => Z.eqb (job_id j) id) (processingJobs d)).

(** [.set(updates)] on one row: the fields present replace the old ones. *)
Definition apply_updates (updates : JobUpdates) (j : ProcessingJob)
  : ProcessingJob :=
  {| job_id := job_id j;
     job_status := default (job_status j) (set_status updates);
     job_progress := default (job_progress j) (set_progress updates);
     job_uploadIds := job_uploadIds j;
     job_context := job_context j;
     job_error :=
       match set_error updates with Some e => Some e | None => job_error j end;
     job_createdAt := job_createdAt j;
     job_completedAt :=
       match set_completedAt updates with
       | Some t => Some t
       | None => job_completedAt j
       end |}.

(** [db.update(processingJobs).set(updates).where(eq(processingJobs.id, id))] *)
Definition update_job (id : Z) (updates : JobUpdates) (d : Db) : Db :=
  {| apiKeys := apiKeys d; apiKeys_seq := apiKeys_seq d;
     uploads := uploads d;
     processingJobs :=
       List.map (fun j => if Z.eqb (job_id j) id
                          then apply_updates updates j else j)
                (processingJobs d);
     processingJobs_seq := processingJobs_seq d;
     summaries := summaries d; summaries_seq := summaries_seq d |}.

(** The row that [db.insert(summaries).values(insertSummary)] adds. *)
Definition new_summary (insertSummary : InsertSummary) (now : N) (d : Db)
  : Summary :=
  {| sum_id := summaries_seq d;
     sum_title := ins_title insertSummary;
     sum_description := ins_description insertSummary;
     sum_text := ins_text insertSummary;
     sum_audioUrl := ins_audioUrl insertSummary;
     sum_processingJobId := ins_processingJobId insertSummary;
     sum_createdAt := now |}.

Definition insert_summary (row : Summary) (d : Db) : Db :=
  {| apiKeys := apiKeys d; apiKeys_seq := apiKeys_seq d;
     uploads := uploads d;
     processingJobs := processingJobs d;
     processingJobs_seq := processingJobs_seq d;
     summaries := summaries d ++ [row];
     summaries_seq := summaries_seq d + 1 |}.

(** [select().from(summaries).where(eq(summaries.processingJobId, id))],
    first row. *)
Definition select_summary_by_job (d : Db) (processingJobId : Z)
  : option Summary :=
  head (List.filter (fun s => Z.eqb (sum_processingJobId s) processingJobId)
                    (summaries d)).

(** *** The methods of [DatabaseStorage] *)

(** [select().from(apiKeys).limit(1)], first row. *)
Definition getApiKeys : M (option ApiKey) :=
  w <- get_world ;;
  ret (head (take 1 (apiKeys (db w)))).

Definition saveApiKeys (keys : InsertApiKey) : M ApiKey :=
  w <- get_world ;;
  put_db (delete_apiKeys (db w)) ;;
  w <- get_world ;;
  let apiKey := new_apiKey keys (clock w) (db w) in
  put_db (insert_apiKey apiKey (db w)) ;;
  ret apiKey.

(** The rows found, in the order of [ids]; an id without a row is
    passed over. *)
Definition getUploads (ids : list Z) : M (list Upload) :=
  w <- get_world ;;
  ret (omap (select_upload (db w)) ids).

Definition createProcessingJob (insertJob : InsertProcessingJob)
  : M ProcessingJob :=
  w <- get_world ;;
  let job := new_job insertJob (clock w) (db w) in
  let d' := insert_job job (db w) in
  put_db d' ;;
  emit (StCreateJob job d') ;;
  ret job.

Definition getProcessingJob (id : Z) : M (option ProcessingJob) :=
  w <- get_world ;;
  ret (select_job (db w) id).

Definition updateProcessingJob (id : Z) (updates : JobUpdates)
  : M (option ProcessingJob) :=
  w <- get_world ;;
  let d' := update_job id updates (db w) in
  put_db d' ;;
  emit (StUpdateJob id updates d') ;;
  ret (select_job d' id).

Definition createSummary (insertSummary : InsertSummary) : M Summary :=
  w <- get_world ;;
  let summary := new_summary insertSummary (clock w) (db w) in
  let d' := insert_summary summary (db w) in
  put_db d' ;;
  emit (StCreateSummary summary d') ;;
  ret summary.


End Storage.

(** ** The external services and the process environment *)

Record Services := {
  (** [pdf-parse] behind [extractTextFromPDF(filePath)] *)
  extractTextFromPDF : jsstring -> Outcome jsstring;
  (** [model.generateContent(prompt)] followed by [response.text()] *)
  generateContent : jsstring -> jsstring -> Outcome jsstring;
  (** the ElevenLabs stream for [text] under [apiKey] *)
  textToSpeech : jsstring -> jsstring -> Outcome (list byte);
  GEMINI_API_KEY : option jsstring;
  ELEVENLABS_API_KEY : option jsstring;
  UPLOADS_DIR : jsstring;
  SYSTEM_PROMPT : jsstring
}.

(** [path.join(dir, name)] for a normalised [dir] and a plain file name. *)
Definition path_join (dir name : jsstring) : jsstring :=
  dir ++ lit "/" ++ name.

(** [fs.writeFile(path, data)] *)
Definition writeFile (path : jsstring) (data : list byte) : M unit := fun w =>
  mkResult (Return tt) (with_file w path data) [StWriteFile path data].

(** [Date.now()] and [new Date()] *)
Definition Date_now : M N := fun w => mkResult (Return (clock w)) w [].

Section Server.

Variable sv : Services.

(** *** server/lib/gemini-api.ts *)

Definition context_line (label : string) (field : option jsstring) : jsstring :=
  if truthy_opt field then lit label ++ default [] field ++ nl else [].

Definition contextPrompt (userContext : option UserContext) : jsstring :=
  match userContext with
  | Some c =>
      lit "USER CONTEXT:" ++ nl
      ++ context_line "Question being explored: " (question c)
      ++ context_line "What user wants others to know: " (knowledge c)
      ++ context_line "What caught user's attention: " (interest c)
      ++ context_line "Conversation user wants to start: " (conversation c)
      ++ nl ++ lit "Please consider this context when generating the summary."
      ++ nl ++ nl
  | None => []
  end.

Definition build_prompt (documentText : jsstring)
    (userContext : option UserContext) : jsstring :=
  SYSTEM_PROMPT sv ++ nl ++ nl ++ contextPrompt userContext
  ++ lit "DOCUMENT CONTENT:" ++ nl ++ documentText.

Definition generateSummary (documentText : jsstring)
    (userContext : option UserContext) (apiKey : option jsstring)
  : M SummaryResult :=
  try_catch
    (if negb (truthy_opt apiKey) then throw (lit "Gemini API key is required")
     else
       let key := default [] apiKey in
       let prompt := build_prompt documentText userContext in
       emit (StGenerateContent key prompt) ;;
       text <- await (generateContent sv key prompt) ;;
       ret (extract_title_description text))
    (fun message => throw (lit "Failed to generate summary: " ++ message)).

(** *** server/lib/elevenlabs-api.ts *)

Definition convertTextToSpeech (text outputPath apiKey : jsstring) : M unit :=
  try_catch
    (if negb (truthy apiKey) then throw (lit "ElevenLabs API key is required")
     else
       emit (StTextToSpeech text outputPath apiKey) ;;
       audio <- await (textToSpeech sv apiKey text) ;;
       writeFile outputPath audio)
    (fun message =>
       throw (lit "Failed to convert text to speech: " ++ message)).

(** *** server/routes.ts: processDocuments *)

(** [Array.isArray(v) ? v.filter(id => typeof id === 'number') : []] *)
Definition number_items (v : Json) : list Z :=
  match v with
  | JArr items =>
      omap (fun x => match x with JNum n => Some n | _ => None end) items
  | _ => []
  end.

(** The body of the extraction loop: one upload, with the running
    [allExtractedText] and [filesProcessed]. *)
Definition extract_one (acc : jsstring * Z) (upload : Upload) : jsstring * Z :=
  let '(allExtractedText, filesProcessed) := acc in
  match extractTextFromPDF sv (up_filepath upload) with
  | Return text =>
      (allExtractedText ++ nl ++ nl ++ lit "--- Document: "
         ++ up_filename upload ++ lit " ---" ++ nl ++ nl ++ text,
       (filesProcessed + 1)%Z)
  | Throw _ =>
      (allExtractedText ++ nl ++ nl ++ lit "--- Document: "
         ++ up_filename upload
         ++ lit " (Error: Could not extract content) ---" ++ nl ++ nl,
       filesProcessed)
  end.

Definition extract_loop (uploads : list Upload) : jsstring * Z :=
  fold_left extract_one uploads ([], 0%Z).

Definition job_updates (s : Status) (p : option Z) (e : option jsstring)
    (t : option N) : JobUpdates :=
  {| set_status := Some s; set_progress := p; set_error := e;
     set_completedAt := t |}.

Definition placeholder_audio : list byte := [x00].

Definition processDocuments (processingJobId : Z) : M Summary :=
  try_catch
    (found <- Storage.getProcessingJob processingJobId ;;
     match found with
     | None => throw (lit "Processing job not found")
     | Some job =>
     Storage.updateProcessingJob processingJobId
       (job_updates processing (Some 20%Z) None None) ;;
     let uploadIds := number_items (job_uploadIds job) in
     uploads <- Storage.getUploads uploadIds ;;
     if bool_decide (length uploads = 0%nat)
     then throw (lit "No uploads found") else
     let '(allExtractedText, filesProcessed) := extract_loop uploads in
     if Z.eqb filesProcessed 0 && bool_decide (0 < length uploads)%nat
     then throw (lit "Failed to extract text from any documents.") else
     Storage.updateProcessingJob processingJobId
       (job_updates summarizing (Some 40%Z) None None) ;;
     let context := job_context job in
     apiKeys <- Storage.getApiKeys ;;
     let geminiKey :=
       or_else (key_gemini <$> apiKeys) (GEMINI_API_KEY sv) in
     let elevenlabsKey :=
       or_else (key_elevenlabs <$> apiKeys) (ELEVENLABS_API_KEY sv) in
     if negb (truthy_opt geminiKey)
     then throw (lit "Gemini API key is not available") else
     aiSummary <-
       try_catch (generateSummary allExtractedText context geminiKey)
         (fun _ => throw (lit "Failed to generate summary with Gemini")) ;;
     Storage.updateProcessingJob processingJobId
       (job_updates converting (Some 70%Z) None None) ;;
     now <- Date_now ;;
     let audioFilename := lit "audio-" ++ of_N now ++ lit ".mp3" in
     let audioPath := path_join (UPLOADS_DIR sv) audioFilename in
     (if truthy_opt elevenlabsKey then
        try_catch
          (convertTextToSpeech (sr_text aiSummary) audioPath
             (default [] elevenlabsKey))
          (fun _ => writeFile audioPath placeholder_audio)
      else writeFile audioPath placeholder_audio) ;;
     createdSummary <- Storage.createSummary
       {| ins_title := sr_title aiSummary;
          ins_description := sr_description aiSummary;
          ins_text := sr_text aiSummary;
          ins_audioUrl := lit "/audio/" ++ audioFilename;
          ins_processingJobId := job_id job |} ;;
     completedAt <- Date_now ;;
     Storage.updateProcessingJob processingJobId
       (job_updates completed (Some 100%Z) None (Some completedAt)) ;;
     ret createdSummary
     end)
    (fun message =>
       Storage.updateProcessingJob processingJobId
         (job_updates error None (Some message) None) ;;
       throw message).

(** *** server/routes.ts: POST /api/process *)

Definition obj_field (name : string) (fields : list (jsstring * Json))
  : option Json :=
  snd <$> head (List.filter (fun kv => bool_decide (fst kv = lit name)) fields).

(** [z.string().optional()] on a property that may be absent. *)
Definition parse_optional_string (v : option Json)
  : option (option jsstring) :=
  match v with
  | None => Some None
  | Some (JStr s) => Some (Some s)
  | Some _ => None
  end.

(** [z.object({question: ..., ...}).optional()] *)
Definition parse_context (v : option Json) : option (option UserContext) :=
  match v with
  | None => Some None
  | Some (JObj fields) =>
      q ← parse_optional_string (obj_field "question" fields);
      k ← parse_optional_string (obj_field "knowledge" fields);
      i ← parse_optional_string (obj_field "interest" fields);
      c ← parse_optional_string (obj_field "conversation" fields);
      Some (Some {| question := q; knowledge := k; interest := i;
                    conversation := c |})
  | Some _ => None
  end.

(** [z.array(z.number())] *)
Definition parse_number_array (v : option Json) : option (list Z) :=
  match v with
  | Some (JArr items) =>
      mapM (fun x => match x with JNum n => Some n | _ => None end) items
  | _ => None
  end.

(** [schema.parse(req.body)]: [None] when zod throws. *)
Definition parse_process_request (body : Json)
  : option (list Z * option UserContext) :=
  match body with
  | JObj fields =>
      uploadIds ← parse_number_array (obj_field "uploadIds" fields);
      context ← parse_context (obj_field "context" fields);
      Some (uploadIds, context)
  | _ => None
  end.

Inductive ProcessResponse :=
| Created201 (processingId : Z)
| BadRequest400 (message : jsstring).

(** The handler up to its response, with the job whose background run it
    has started, if any. *)
Definition post_api_process (body : Json) : M (ProcessResponse * option Z) :=
  match parse_process_request body with
  | Some (uploadIds, context) =>
      processingJob <- Storage.createProcessingJob
        {| ins_uploadIds := JArr (JNum <$> uploadIds);
           ins_context := context |} ;;
      ret (Created201 (job_id processingJob), Some (job_id processingJob))
  | None => ret (BadRequest400 (lit "Invalid processing request"), None)
  end.

(** The request together with the background run it starts, run to its
    end: [processDocuments(id).catch(error => console.error(...))]. *)
Definition serve_process (body : Json) : M ProcessResponse :=
  started <- post_api_process body ;;
  match snd started with
  | Some id =>
      try_catch (processDocuments id ;; ret tt) (fun _ => ret tt) ;;
      ret (fst started)
  | None => ret (fst started)
  end.

(** *** server/routes.ts: GET /api/process/:id/status *)

Record SummaryView := {
  v_id : Z;
  v_title : jsstring;
  v_description : jsstring;
  v_text : jsstring;
  v_audioUrl : jsstring;
  v_createdAt : N
}.

Record StatusBody := {
  st_status : jsstring;
  st_progress : Z;
  st_summary : option SummaryView;
  st_error : option jsstring
}.

Definition summary_view (summary : Summary) : SummaryView :=
  {| v_id := sum_id summary; v_title := sum_title summary;
     v_description := sum_description summary; v_text := sum_text summary;
     v_audioUrl := sum_audioUrl summary;
     v_createdAt := sum_createdAt summary |}.

(** The JSON body for a job id that parses; [None] is the 404 answer. *)
Definition status_body (d : Db) (processingId : Z) : option StatusBody :=
  match Storage.select_job d processingId with
  | None => None
  | Some job =>
      Some {| st_status := status_name (job_status job);
              st_progress := job_progress job;
              st_summary :=
                if decide (job_status job = completed)
                then summary_view
                       <$> Storage.select_summary_by_job d (job_id job)
                else None;
              st_error :=
                if truthy_opt (job_error job) then job_error job else None |}
  end.

(** *** server/routes.ts: GET /audio/:filename *)


End Server.

(** ** client/src/components/processing-section.tsx: the status poller *)

Module Poller.

Inductive HandlerCall :=
| onProcessingComplete (summary : SummaryView)
| onError (message : jsstring).

Record State := {
  interval_set : bool;       (** [pollingInterval] not yet cleared *)
  isMounted : bool;
  status : jsstring;
  description : jsstring;
  progress : Z;
  polls : nat;               (** calls of [getProcessingStatus] so far *)
  calls : list HandlerCall   (** handler calls so far, oldest first *)
}.

Definition show (st : State) (s d : string) (p : Z) : State :=
  {| interval_set := interval_set st; isMounted := isMounted st;
     status := lit s; description := lit d; progress := p;
     polls := polls st; calls := calls st |}.

Definition setProgress (st : State) (p : Z) : State :=
  {| interval_set := interval_set st; isMounted := isMounted st;
     status := status st; description := description st; progress := p;
     polls := polls st; calls := calls st |}.

Definition clearInterval (st : State) : State :=
  {| interval_set := false; isMounted := isMounted st;
     status := status st; description := description st;
     progress := progress st; polls := polls st; calls := calls st |}.

Definition call (st : State) (c : HandlerCall) : State :=
  {| interval_set := interval_set st; isMounted := isMounted st;
     status := status st; description := description st;
     progress := progress st; polls := polls st; calls := calls st ++ [c] |}.

Definition count_poll (st : State) : State :=
  {| interval_set := interval_set st; isMounted := isMounted st;
     status := status st; description := description st;
     progress := progress st; polls := S (polls st); calls := calls st |}.

(** The [switch (statusResult.status)]. *)
Definition on_status (statusResult : StatusBody) (st : State) : State :=
  let s := st_status statusResult in
  if bool_decide (s = lit "extracting") || bool_decide (s = lit "processing")
  then show st "Extracting Text..."
         "Reading and extracting content from your PDF documents." 40
  else if bool_decide (s = lit "summarizing")
  then show st "Generating Summary..."
         "Analyzing content to create an engaging podcast-style summary." 60
  else if bool_decide (s = lit "converting")
  then show st "Creating Audio..."
         "Converting the summary into high-quality audio." 80
  else if bool_decide (s = lit "completed")
  then let st := setProgress st 100 in
       match st_summary statusResult with
       | Some summary => call (clearInterval st) (onProcessingComplete summary)
       | None => st
       end
  else if bool_decide (s = lit "error")
  then call (clearInterval st)
         (onError (if truthy_opt (st_error statusResult)
                   then default [] (st_error statusResult)
                   else lit "An unknown error occurred during processing."))
  else st.

(** One run of the interval callback; [fetched] is what
    [getProcessingStatus] settles to. *)
Definition callback (fetched : Outcome StatusBody) (st : State) : State :=
  let st := count_poll st in
  if negb (isMounted st) then st
  else match fetched with
       | Return statusResult => on_status statusResult st
       | Throw _ =>
           call (clearInterval st)
             (onError
                (lit "Failed to get processing status. Please try again."))
       end.

(** The timer fires: the callback runs only while the interval is set. *)
Definition tick (st : State) (fetched : Outcome StatusBody) : State :=
  if interval_set st then callback fetched st else st.

(** The poller over successive timer periods, one settled fetch each. *)
Definition run (fetches : list (Outcome StatusBody)) (st : State) : State :=
  fold_left tick fetches st.

(** The effect's cleanup, when the view goes away. *)
Definition cleanup (st : State) : State :=
  {| interval_set := false; isMounted := false;
     status := status st; description := description st;
     progress := progress st; polls := polls st; calls := calls st |}.

(** The state when [setInterval] has just been called. *)
Definition started : State :=
  {| interval_set := true; isMounted := true;
     status := lit "Extracting Text...";
     description :=
       lit "Reading and extracting content from your PDF documents.";
     progress := 40; polls := 0; calls := [] |}.

End Poller.

(** ** Concrete scenarios *)

Module Scenario.

(** The narrative of the scenario: a title line, a paragraph and a body,
    separated by blank lines. *)
Definition narrative : jsstring :=
  lit "Title Line" ++ nl ++ nl ++ lit "Description paragraph" ++ nl ++ nl
  ++ lit "Body...".

(** Stub services: extraction fails on [/u/bad.pdf] and gives
    "Hello world" (or "content" for [/u/b.pdf]) otherwise; Gemini answers
    [narrative] under key [g] and fails under any other key; ElevenLabs
    always fails. *)
Definition services : Services :=
  {| extractTextFromPDF := fun filePath =>
       if bool_decide (filePath = lit "/u/bad.pdf")
       then Throw (lit "Failed to process PDF: bad XRef")
       else if bool_decide (filePath = lit "/u/b.pdf")
       then Return (lit "content")
       else Return (lit "Hello world");
     generateContent := fun apiKey _ =>
       if bool_decide (apiKey = lit "g") then Return narrative
       else Throw (lit "API key not valid");
     textToSpeech := fun _ _ => Throw (lit "ElevenLabs API error: 401");
     GEMINI_API_KEY := Some (lit "g");
     ELEVENLABS_API_KEY := None;
     UPLOADS_DIR := lit "/srv/uploads";
     SYSTEM_PROMPT := lit "You are tasked with creating a summary." |}.

Definition upload (id : Z) (name path : string) : Upload :=
  {| up_id := id; up_filename := lit name; up_filepath := lit path;
     up_size := 2048; up_createdAt := 1 |}.

Definition fresh_job (id : Z) (ids : list Z) : ProcessingJob :=
  {| job_id := id; job_status := pending; job_progress := 0;
     job_uploadIds := JArr (JNum <$> ids); job_context := None;
     job_error := None; job_createdAt := 2; job_completedAt := None |}.

Definition database (keys : list ApiKey) (jobs : list ProcessingJob) : Db :=
  {| apiKeys := keys; apiKeys_seq := 2;
     uploads := [upload 1 "a.pdf" "/u/a.pdf";
                 upload 2 "bad.pdf" "/u/bad.pdf";
                 upload 3 "b.pdf" "/u/b.pdf"];
     processingJobs := jobs; processingJobs_seq := 8;
     summaries := []; summaries_seq := 1 |}.

Definition world (keys : list ApiKey) (jobs : list ProcessingJob) : World :=
  {| db := database keys jobs; files := ∅; clock := 1730000000000 |}.

(** A request body [{ uploadIds: ids }]. *)
Definition request (ids : list Z) : Json :=
  JObj [(lit "uploadIds", JArr (JNum <$> ids))].

(** Job 7 over the given uploads, freshly created. *)
Definition job7 (ids : list Z) : ProcessingJob := fresh_job 7 ids.

Definition world7 (ids : list Z) : World := world [] [job7 ids].

(** A stored key row whose Gemini key the stub rejects. *)
Definition rejected_keys : ApiKey :=
  {| key_id := 1; key_gemini := lit "expired"; key_elevenlabs := [];
     key_createdAt := 1 |}.


(** The background run of job 7 over uploads [ids], with the stored key
    rows [keys]. *)
Definition run (keys : list ApiKey) (ids : list Z) : Result Summary :=
  processDocuments services 7 (world keys [job7 ids]).

(** A status response for a completed job that carries no summary. *)
Definition completed_without_summary : StatusBody :=
  {| st_status := lit "completed"; st_progress := 100; st_summary := None;
     st_error := None |}.

Definition failed_response : StatusBody :=
  {| st_status := lit "error"; st_progress := 20; st_summary := None;
     st_error := Some (lit "No uploads found") |}.


End Scenario.

(** ** Vocabulary of the properties *)

(** What the regular expression [/^#\s*/] removes from a title line: a
    line that does not start with [#] is kept; otherwise the [#] goes,
    with all the white space that follows it. *)
Inductive heading_stripped : jsstring -> jsstring -> Prop :=
| hs_plain (line : jsstring) :
    head line <> Some 35 -> heading_stripped line line
| hs_marker (ws rest : jsstring) :
    Forall (fun c => is_space c = true) ws ->
    (forall c, head rest = Some c -> is_space c = false) ->
    heading_stripped (35 :: ws ++ rest) rest.

(** The documents a job resolves to: the stored uploads named by its
    [uploadIds], in that order. *)
Definition resolved_uploads (d : Db) (job : ProcessingJob) : list Upload :=
  omap (Storage.select_upload d) (number_items (job_uploadIds job)).

Definition extraction_succeeds (sv : Services) (u : Upload) : bool :=
  match extractTextFromPDF sv (up_filepath u) with
  | Return _ => true
  | Throw _ => false
  end.

(** The labelled segment of one document: its header line and text, or
    the placeholder header when its extraction fails. *)
Definition segment (sv : Services) (u : Upload) : jsstring :=
  match extractTextFromPDF sv (up_filepath u) with
  | Return text =>
      nl ++ nl ++ lit "--- Document: " ++ up_filename u ++ lit " ---"
      ++ nl ++ nl ++ text
  | Throw _ =>
      nl ++ nl ++ lit "--- Document: " ++ up_filename u
      ++ lit " (Error: Could not extract content) ---" ++ nl ++ nl
  end.

(** The keys a run works with: the stored row first, the environment
    second. *)
Definition geminiKey_of (sv : Services) (d : Db) : option jsstring :=
  or_else (key_gemini <$> head (take 1 (apiKeys d))) (GEMINI_API_KEY sv).

Definition elevenlabsKey_of (sv : Services) (d : Db) : option jsstring :=
  or_else (key_elevenlabs <$> head (take 1 (apiKeys d)))
          (ELEVENLABS_API_KEY sv).

Definition audioFilename_at (now : N) : jsstring :=
  lit "audio-" ++ of_N now ++ lit ".mp3".

(** The databases an observer can find during a run, oldest first. *)
Definition snapshots (t : list Step) : list Db :=
  omap (fun s => match s with
                 | StCreateJob _ d | StUpdateJob _ _ d
                 | StCreateSummary _ d => Some d
                 | _ => None
                 end) t.

(** The updates a run applies to one job, oldest first. *)
Definition updates_of (id : Z) (t : list Step) : list JobUpdates :=
  omap (fun s => match s with
                 | StUpdateJob id' u _ =>
                     if Z.eqb id' id then Some u else None
                 | _ => None
                 end) t.

(** The successive records of a job under a list of updates. *)
Fixpoint records (j : ProcessingJob) (us : list JobUpdates)
  : list ProcessingJob :=
  match us with
  | [] => []
  | u :: us' =>
      let j' := Storage.apply_updates u j in j' :: records j' us'
  end.

Definition calls_gemini (s : Step) : bool :=
  match s with StGenerateContent _ _ => true | _ => false end.

Definition calls_elevenlabs (s : Step) : bool :=
  match s with StTextToSpeech _ _ _ => true | _ => false end.

Definition creates_summary (s : Step) : bool :=
  match s with StCreateSummary _ _ => true | _ => false end.

Definition terminal (s : Status) : bool :=
  match s with completed | error => true | _ => false end.

(** The place of a status along the pipeline; both terminal states come
    last. *)
Definition stage (s : Status) : nat :=
  match s with
  | pending => 0 | processing => 1 | summarizing => 2 | converting => 3
  | completed => 4 | error => 4
  end.

(** An update moves status and progress together. *)
Definition moves_together (u : JobUpdates) : Prop :=
  is_Some (set_status u) /\ is_Some (set_progress u).

(** The outcome of the audio stage for narrative [text]: the call made to
    ElevenLabs, if a key is there, and the bytes stored at [path]. *)
Definition audio_stage (sv : Services) (key : option jsstring)
    (text path : jsstring) : list Step * list byte :=
  if truthy_opt key then
    ([StTextToSpeech text path (default [] key)],
     match textToSpeech sv (default [] key) text with
     | Return audio => audio
     | Throw _ => placeholder_audio
     end)
  else ([], placeholder_audio).

(** The summary row a run inserts for narrative [narrative]. *)
Definition summary_row (narrative : jsstring) (job : ProcessingJob)
    (now : N) (d : Db) : Summary :=
  let aiSummary := extract_title_description narrative in
  Storage.new_summary
    {| ins_title := sr_title aiSummary;
       ins_description := sr_description aiSummary;
       ins_text := sr_text aiSummary;
       ins_audioUrl := lit "/audio/" ++ audioFilename_at now;
       ins_processingJobId := job_id job |} now d.

(** [R] holds between each element of a list and the next. *)
Fixpoint adjacent {A} (R : A -> A -> Prop) (l : list A) : Prop :=
  match l with
  | a :: (b :: _) as rest => R a b /\ adjacent R rest
  | _ => True
  end.

(** The rows of one job that an observer finds during a run, oldest
    first. *)
Definition observed (id : Z) (t : list Step) : list ProcessingJob :=
  omap (fun d => Storage.select_job d id) (snapshots t).

(** Two records of a job that differ at most in [error] and
    [completedAt]. *)
Definition same_but_error_completedAt (j j' : ProcessingJob) : Prop :=
  job_id j' = job_id j /\ job_status j' = job_status j /\
  job_progress j' = job_progress j /\ job_uploadIds j' = job_uploadIds j /\
  job_context j' = job_context j /\ job_createdAt j' = job_createdAt j.

(** One step in the life of a job record: progress and stage do not go
    down, and a terminal record only changes in [error] and
    [completedAt]. *)
Definition job_step (j j' : ProcessingJob) : Prop :=
  (job_progress j <= job_progress j')%Z /\
  (stage (job_status j) <= stage (job_status j'))%nat /\
  (terminal (job_status j) = true -> same_but_error_completedAt j j').

(** An update that names a stage sets status and progress together; the
    error update sets the status and leaves progress alone; no update sets
    progress without a status. *)
Definition status_with_progress (u : JobUpdates) : Prop :=
  match set_status u with
  | Some error => set_progress u = None
  | Some _ => is_Some (set_progress u)
  | None => set_progress u = None
  end.

(** Serial keys are not reused: every job row has an id below the
    sequence, and every summary refers to such an id. *)
Definition Db_wf (d : Db) : Prop :=
  Forall (fun j => (job_id j < processingJobs_seq d)%Z) (processingJobs d) /\
  Forall (fun s => (sum_processingJobId s < processingJobs_seq d)%Z)
         (summaries d).






(** ** More of server/routes.ts and server/storage.ts *)



(** The body [{ gemini, elevenlabs }] of the settings routes: the stored
    row without [id] and [createdAt]. *)
Record KeysBody := {
  body_gemini : jsstring;
  body_elevenlabs : jsstring
}.

Definition demo_keys : KeysBody :=
  {| body_gemini := lit "demo-gemini-key-for-prototype";
     body_elevenlabs := lit "demo-elevenlabs-key-for-prototype" |}.

(** [const { id, createdAt, ...keys } = apiKeys] *)
Definition keys_of_row (row : ApiKey) : KeysBody :=
  {| body_gemini := key_gemini row; body_elevenlabs := key_elevenlabs row |}.

(** [insertApiKeySchema.parse(req.body)]: an object with two string
    fields; [None] when zod throws. *)
Definition parse_api_keys (body : Json) : option InsertApiKey :=
  match body with
  | JObj fields =>
      match obj_field "gemini" fields, obj_field "elevenlabs" fields with
      | Some (JStr g), Some (JStr e) =>
          Some {| ins_gemini := g; ins_elevenlabs := e |}
      | _, _ => None
      end
  | _ => None
  end.

Inductive KeysResponse :=
| KeysOk200 (keys : KeysBody)
| KeysBadRequest400 (message : jsstring).

(** POST /api/settings/api-keys *)
Definition post_api_settings_api_keys (body : Json) : M KeysResponse :=
  try_catch
    (match parse_api_keys body with
     | Some validatedData =>
         apiKeys <- Storage.saveApiKeys validatedData ;;
         ret (KeysOk200 (keys_of_row apiKeys))
     | None => throw (lit "ZodError")
     end)
    (fun _ => ret (KeysBadRequest400 (lit "Invalid API keys data"))).


Section MoreRoutes.

Variable sv : Services.

(** GET /api/settings/api-keys *)
Definition get_api_settings_api_keys : M KeysBody :=
  try_catch
    (let envGeminiKey := GEMINI_API_KEY sv in
     let envElevenlabsKey := ELEVENLABS_API_KEY sv in
     if truthy_opt envGeminiKey && truthy_opt envElevenlabsKey then
       let g := default [] envGeminiKey in
       let e := default [] envElevenlabsKey in
       storedKeys <- Storage.getApiKeys ;;
       (if match storedKeys with
           | None => true
           | Some stored =>
               bool_decide (key_gemini stored <> g)
               || bool_decide (key_elevenlabs stored <> e)
           end
        then
          try_catch
            (Storage.saveApiKeys {| ins_gemini := g; ins_elevenlabs := e |} ;;
             ret tt)
            (fun _ => ret tt)
        else ret tt) ;;
       ret {| body_gemini := g; body_elevenlabs := e |}
     else
       apiKeys <- Storage.getApiKeys ;;
       match apiKeys with
       | None => ret demo_keys
       | Some row => ret (keys_of_row row)
       end)
    (fun _ => ret demo_keys).

(** GET /api/process/:id/status, for an id that parses: [None] is the
    404 answer. *)
Definition get_api_process_status (processingId : Z)
  : M (option StatusBody) :=
  w <- get_world ;;
  ret (status_body (db w) processingId).



End MoreRoutes.

(** ** Vocabulary of the further properties *)

(** The ids that name a stored upload. *)
Definition stored_upload (d : Db) (id : Z) : bool :=
  existsb (fun u => Z.eqb (up_id u) id) (uploads d).


(** A context in which every empty field is made absent. *)
Definition drop_empty (field : option jsstring) : option jsstring :=
  match field with
  | Some [] => None
  | _ => field
  end.

Definition normalized (c : UserContext) : UserContext :=
  {| question := drop_empty (question c);
     knowledge := drop_empty (knowledge c);
     interest := drop_empty (interest c);
     conversation := drop_empty (conversation c) |}.

(** What the handler of a poller is called with at the end of a run. *)
Definition expected_call (r : Result Summary) : Poller.HandlerCall :=
  match outcome r with
  | Return summary => Poller.onProcessingComplete (summary_view summary)
  | Throw message => Poller.onError message
  end.

Module Sample.

(** Services with both environment keys, whose speech service answers
    three bytes. *)
Definition services : Services :=
  {| extractTextFromPDF := extractTextFromPDF Scenario.services;
     generateContent := generateContent Scenario.services;
     textToSpeech := fun _ _ => Return [x49; x44; x33];
     GEMINI_API_KEY := Some (lit "g");
     ELEVENLABS_API_KEY := Some (lit "e");
     UPLOADS_DIR := lit "/srv/uploads";
     SYSTEM_PROMPT := lit "You are tasked with creating a summary." |}.

Definition run : Result Summary :=
  processDocuments services 7 (Scenario.world [] [Scenario.job7 [1%Z]]).


End Sample.

(** * Properties *)

(** ** Title and description of a narrative *)

Section Derivation.

Lemma skip_space_all (s : jsstring) :
  Forall (fun c => is_space c = true) s -> skip_space s = [].
Proof.
  induction 1 as [|c s Hc _ IH]; simpl; [done|]. by rewrite Hc.
Qed.

Lemma skip_space_nil_inv (s : jsstring) :
  skip_space s = [] -> Forall (fun c => is_space c = true) s.
Proof.
  induction s as [|c s IH]; simpl; [constructor|].
  destruct (is_space c) eqn:Hc; [|discriminate].
  intros H. constructor; auto.
Qed.

Lemma skip_space_suffix (s : jsstring) :
  exists ws, s = ws ++ skip_space s /\ Forall (fun c => is_space c = true) ws.
Proof.
  induction s as [|c s [ws [Heq Hws]]]; simpl.
  - by exists [].
  - destruct (is_space c) eqn:Hc.
    + exists (c :: ws). split; [simpl; congruence | by constructor].
    + by exists [].
Qed.

Lemma skip_space_head (s : jsstring) (c : N) :
  head (skip_space s) = Some c -> is_space c = false.
Proof.
  induction s as [|a s IH]; simpl; [done|].
  destruct (is_space a) eqn:Ha; [done|].
  simpl. by intros [= <-].
Qed.

(** A line passes the filter exactly when it holds a character that is
    not white space. *)
Lemma nonblank_spec (line : jsstring) :
  nonblank line = true <-> Exists (fun c => is_space c = false) line.
Proof.
  unfold nonblank, trim. rewrite bool_decide_eq_true, length_rev.
  split.
  - intros Hlen.
    destruct (decide (Exists (fun c => is_space c = false) line))
      as [|Hno]; [done|].
    assert (Hall : Forall (fun c => is_space c = true) line).
    { apply Forall_forall. intros c Hc.
      destruct (is_space c) eqn:E; [done|].
      exfalso. apply Hno, Exists_exists. eauto. }
    rewrite (skip_space_all line Hall) in Hlen. simpl in Hlen. lia.
  - intros Hex.
    destruct (skip_space (rev (skip_space line))) eqn:E; [|simpl; lia].
    exfalso.
    apply skip_space_nil_inv in E.
    destruct (skip_space_suffix line) as (ws & Heq & Hws).
    apply Exists_exists in Hex as (c & Hin & Hc).
    rewrite Heq in Hin. apply elem_of_app in Hin as [Hin|Hin].
    + rewrite Forall_forall in Hws. specialize (Hws c Hin). congruence.
    + rewrite Forall_forall in E.
      assert (Hrev : c ∈ rev (skip_space line)).
      { apply list_elem_of_In. rewrite <- in_rev. by apply list_elem_of_In. }
      specialize (E c Hrev). congruence.
Qed.

Lemma summary_lines_nonblank (text : jsstring) :
  Forall (fun l => nonblank l = true) (summary_lines text).
Proof.
  unfold summary_lines. induction (split 10 text) as [|l ls IH]; simpl.
  - constructor.
  - destruct (nonblank l) eqn:E; [by constructor | done].
Qed.

Lemma description_loop_found (rest : list jsstring) :
  Forall (fun l => nonblank l = true) rest ->
  description_loop rest true = default [] (head rest).
Proof.
  destruct 1 as [|l rest Hl _]; simpl; [done|].
  unfold nonblank in Hl. by rewrite Hl.
Qed.

(** On lines that all pass the filter, the loop skips one line and takes
    the next. *)
Lemma description_loop_second (rest : list jsstring) :
  Forall (fun l => nonblank l = true) rest ->
  description_loop rest false = default [] (rest !! 1%nat).
Proof.
  destruct 1 as [|l rest Hl Hrest]; simpl; [done|].
  unfold nonblank in Hl. rewrite Hl. simpl.
  rewrite description_loop_found by done. by destruct rest.
Qed.

Lemma nonblank_truthy (l : jsstring) : nonblank l = true -> truthy l = true.
Proof. destruct l; [|done]. by vm_compute. Qed.

Lemma strip_heading_spec (line : jsstring) :
  heading_stripped line (strip_heading line).
Proof.
  destruct line as [|c rest]; simpl.
  - by apply hs_plain.
  - destruct (N.eqb_spec c 35) as [->|Hne].
    + destruct (skip_space_suffix rest) as (ws & Heq & Hws).
      rewrite Heq at 1. apply hs_marker; [done|].
      apply skip_space_head.
    + apply hs_plain. simpl. congruence.
Qed.

(** The rule of [extract_title_description], on the filtered lines. *)
Lemma extract_title_description_spec (text : jsstring) :
  let r := extract_title_description text in
  sr_text r = text /\
  match summary_lines text with
  | [] => sr_title r = default_title
  | first :: _ => heading_stripped first (sr_title r)
  end /\
  match summary_lines text !! 2%nat with
  | Some third =>
      ((length third <= 200)%nat -> sr_description r = third) /\
      ((200 < length third)%nat ->
       sr_description r = take 197 third ++ lit "...")
  | None => sr_description r = default_description
  end /\
  (length (sr_description r) <= 200)%nat.
Proof.
  unfold extract_title_description.
  cbv zeta. cbn [sr_text sr_title sr_description].
  pose proof (summary_lines_nonblank text) as Hnb.
  split; [done|]. split.
  { destruct (summary_lines text); [done|]. apply strip_heading_spec. }
  rewrite description_loop_second by (by apply Forall_drop).
  rewrite lookup_drop. change (1 + 1)%nat with 2%nat.
  destruct (summary_lines text !! 2%nat) as [third|] eqn:E3;
    cbn [default from_option id].
  - assert (Ht : truthy third = true).
    { apply nonblank_truthy.
      rewrite Forall_forall in Hnb. eapply Hnb, list_elem_of_lookup_2, E3. }
    rewrite Ht. cbn [negb].
    case_bool_decide as Hlen.
    + split; [split; [intros; lia | done]|].
      unfold substring0. rewrite length_app, length_take.
      change (length (lit "...")) with 3%nat. lia.
    + split; [split; [done | intros; lia]|]. lia.
  - split; [by vm_compute | by vm_compute; lia].
Qed.

End Derivation.

(** C1, as amended. When Gemini answers [text], [generateSummary] keeps
    [text] whole, takes as title the first non-blank line less one leading
    [#] and the white space after it ("Document Summary" when no line is
    non-blank), and takes as description the third non-blank line, that is
    the second one after the title line: cut to 197 characters and "..."
    when it is longer than 200, and the generic sentence when there is no
    such line. The description never exceeds 200 characters. *)
Theorem generateSummary_title_description
    (sv : Services) (documentText : jsstring)
    (userContext : option UserContext) (key text : jsstring) (w : World) :
  truthy key = true ->
  generateContent sv key (build_prompt sv documentText userContext)
    = Return text ->
  exists r,
    outcome (generateSummary sv documentText userContext (Some key) w)
      = Return r /\
    sr_text r = text /\
    match summary_lines text with
    | [] => sr_title r = default_title
    | first :: _ => heading_stripped first (sr_title r)
    end /\
    match summary_lines text !! 2%nat with
    | Some third =>
        ((length third <= 200)%nat -> sr_description r = third) /\
        ((200 < length third)%nat ->
         sr_description r = take 197 third ++ lit "...")
    | None => sr_description r = default_description
    end /\
    (length (sr_description r) <= 200)%nat.
Proof.
  intros Hkey Hgen.
  exists (extract_title_description text). split.
  - unfold generateSummary, try_catch, bind, emit, await, ret. simpl.
    rewrite Hkey. simpl. rewrite Hgen. reflexivity.
  - apply extract_title_description_spec.
Qed.

Lemma generateSummary_title_description_witness :
  exists r,
    outcome (generateSummary Scenario.services (lit "Hello world") None
               (Some (lit "g")) (Scenario.world [] []))
      = Return r /\
    sr_text r = Scenario.narrative /\
    heading_stripped (lit "Title Line") (sr_title r) /\
    (((length (lit "Body...") <= 200)%nat -> sr_description r = lit "Body...")
     /\ ((200 < length (lit "Body..."))%nat ->
         sr_description r = take 197 (lit "Body...") ++ lit "...")) /\
    (length (sr_description r) <= 200)%nat.
Proof.
  exact (generateSummary_title_description Scenario.services
           (lit "Hello world") None (lit "g") Scenario.narrative
           (Scenario.world [] []) eq_refl eq_refl).
Defined.

(** C1 as stated fails on its own scenario: the description derived from
    "Title Line\n\nDescription paragraph\n\nBody..." is "Body...", the
    paragraph after the one the claim names. *)
Lemma generateSummary_scenario_description :
  exists r,
    outcome (generateSummary Scenario.services (lit "Hello world") None
               (Some (lit "g")) (Scenario.world [] []))
      = Return r /\
    sr_title r = lit "Title Line" /\
    sr_text r = Scenario.narrative /\
    sr_description r = lit "Body..." /\
    sr_description r <> lit "Description paragraph".
Proof.
  eexists. split; [vm_compute; reflexivity|].
  repeat split; try (vm_compute; reflexivity).
  vm_compute. discriminate.
Qed.

(** ** Storage lemmas *)

Arguments lit : simpl never.
Arguments of_N : simpl never.
Arguments Storage.update_job : simpl never.
Arguments Storage.insert_summary : simpl never.
Arguments Storage.new_summary : simpl never.
Arguments Storage.select_job : simpl never.
Arguments Storage.select_upload : simpl never.
Arguments Storage.select_summary_by_job : simpl never.
Arguments extract_title_description : simpl never.
Arguments extract_loop : simpl never.
Arguments build_prompt : simpl never.
Arguments path_join : simpl never.
Arguments job_updates : simpl never.
Arguments bind {A B} m k w /.
Arguments try_catch {A} m handler w /.
Arguments ret {A} a w /.
Arguments throw {A} message w /.
Arguments emit s w /.
Arguments await {A} o w /.
Arguments put_db d w /.
Arguments get_world w /.
Arguments Date_now w /.
Arguments writeFile path data w /.

Section StorageFacts.

Implicit Types (d : Db) (id : Z) (u : JobUpdates).

Lemma select_upload_update_job id u d :
  Storage.select_upload (Storage.update_job id u d) = Storage.select_upload d.
Proof. reflexivity. Qed.

Lemma apiKeys_update_job id u d :
  apiKeys (Storage.update_job id u d) = apiKeys d.
Proof. reflexivity. Qed.

Lemma select_summary_update_job id u d :
  Storage.select_summary_by_job (Storage.update_job id u d)
  = Storage.select_summary_by_job d.
Proof. reflexivity. Qed.

Lemma select_job_insert_summary s d :
  Storage.select_job (Storage.insert_summary s d) = Storage.select_job d.
Proof. reflexivity. Qed.

Lemma head_filter_map {A} (p : A -> bool) (f : A -> A) (l : list A) :
  (forall x, p (f x) = p x) ->
  head (List.filter p (List.map f l)) = f <$> head (List.filter p l).
Proof.
  intros Hp. induction l as [|x l IH]; simpl; [done|].
  rewrite Hp. destruct (p x); [done | exact IH].
Qed.

(** Reading a job back after an update of that job. *)
Lemma select_job_update_job id u d :
  Storage.select_job (Storage.update_job id u d) id
  = Storage.apply_updates u <$> Storage.select_job d id.
Proof.
  unfold Storage.select_job, Storage.update_job. simpl.
  rewrite (head_filter_map (fun j => Z.eqb (job_id j) id)
             (fun j => if Z.eqb (job_id j) id
                       then Storage.apply_updates u j else j)).
  - destruct (head _) as [j|] eqn:E; simpl; [|done].
    apply head_Some_elem_of, list_elem_of_In, filter_In in E as [_ E].
    by rewrite E.
  - intros j. destruct (Z.eqb (job_id j) id) eqn:E; simpl; by rewrite ?E.
Qed.

Lemma select_job_id d id job :
  Storage.select_job d id = Some job -> job_id job = id.
Proof.
  unfold Storage.select_job. intros E.
  apply head_Some_elem_of, list_elem_of_In, filter_In in E as [_ E].
  by apply Z.eqb_eq.
Qed.

Lemma select_summary_insert_summary s d id :
  Storage.select_summary_by_job (Storage.insert_summary s d) id
  = match Storage.select_summary_by_job d id with
    | Some s' => Some s'
    | None => if Z.eqb (sum_processingJobId s) id then Some s else None
    end.
Proof.
  unfold Storage.select_summary_by_job, Storage.insert_summary. simpl.
  rewrite List.filter_app. simpl.
  destruct (List.filter _ (summaries d)) as [|s' l]; simpl.
  - by destruct (Z.eqb (sum_processingJobId s) id).
  - done.
Qed.

End StorageFacts.

(** ** The extraction loop *)

Section Extraction.

Variable sv : Services.

Lemma extract_one_segment (acc : jsstring * Z) (u : Upload) :
  extract_one sv acc u
  = (fst acc ++ segment sv u,
     (snd acc + if extraction_succeeds sv u then 1 else 0)%Z).
Proof.
  destruct acc as [text n]. unfold extract_one, segment, extraction_succeeds.
  destruct (extractTextFromPDF sv (up_filepath u)); simpl.
  - done.
  - by rewrite Z.add_0_r.
Qed.

Lemma fold_extract_one (us : list Upload) (acc : jsstring * Z) :
  fold_left (extract_one sv) us acc
  = (fst acc ++ concat (segment sv <$> us),
     (snd acc + Z.of_nat (length (List.filter (extraction_succeeds sv) us)))%Z).
Proof.
  revert acc. induction us as [|u us IH]; intros acc; simpl.
  - rewrite app_nil_r, Z.add_0_r. by destruct acc.
  - rewrite IH, extract_one_segment. simpl fst. simpl snd.
    rewrite <- app_assoc. f_equal.
    destruct (extraction_succeeds sv u); simpl length; lia.
Qed.

(** The loop leaves the segments of all documents, in their order, and
    the number of documents that were read. *)
Lemma extract_loop_spec (us : list Upload) :
  extract_loop sv us
  = (concat (segment sv <$> us),
     Z.of_nat (length (List.filter (extraction_succeeds sv) us))).
Proof. unfold extract_loop. by rewrite fold_extract_one. Qed.

Lemma filesProcessed_zero (us : list Upload) :
  Z.eqb (snd (extract_loop sv us)) 0 = true
  <-> Forall (fun u => extraction_succeeds sv u = false) us.
Proof.
  rewrite extract_loop_spec. simpl. rewrite Z.eqb_eq.
  induction us as [|u us IH]; simpl.
  - split; [constructor | done].
  - destruct (extraction_succeeds sv u) eqn:E; simpl.
    + split; [lia | by inversion 1; congruence].
    + rewrite IH. split; [by constructor | by inversion 1].
Qed.

Lemma filesProcessed_nonzero (us : list Upload) :
  Exists (fun u => extraction_succeeds sv u = true) us ->
  Z.eqb (snd (extract_loop sv us)) 0 = false.
Proof.
  intros Hex. destruct (Z.eqb _ 0) eqn:E; [|done].
  apply filesProcessed_zero in E.
  apply Exists_exists in Hex as (u & Hin & Hu).
  rewrite Forall_forall in E. specialize (E u Hin). congruence.
Qed.

Lemma processed_zero (us : list Upload) :
  Forall (fun u => extraction_succeeds sv u = false) us ->
  Z.eqb (Z.of_nat (length (List.filter (extraction_succeeds sv) us))) 0
  = true.
Proof.
  intros H. apply filesProcessed_zero in H.
  by rewrite extract_loop_spec in H.
Qed.

Lemma processed_nonzero (us : list Upload) :
  Exists (fun u => extraction_succeeds sv u = true) us ->
  Z.eqb (Z.of_nat (length (List.filter (extraction_succeeds sv) us))) 0
  = false.
Proof.
  intros H. apply filesProcessed_nonzero in H.
  by rewrite extract_loop_spec in H.
Qed.

End Extraction.

(** ** The runs of processDocuments *)

Arguments processDocuments : simpl never.
Arguments generateSummary : simpl never.
Arguments convertTextToSpeech : simpl never.

Section Runs.

Variable sv : Services.

Lemma generateSummary_run (documentText : jsstring)
    (userContext : option UserContext) (key : jsstring) (w : World) :
  truthy key = true ->
  let prompt := build_prompt sv documentText userContext in
  generateSummary sv documentText userContext (Some key) w
  = mkResult
      match generateContent sv key prompt with
      | Return text => Return (extract_title_description text)
      | Throw e => Throw (lit "Failed to generate summary: " ++ e)
      end
      w [StGenerateContent key prompt].
Proof.
  intros Hkey. unfold generateSummary. cbn. rewrite Hkey. cbn.
  by destruct (generateContent sv key _).
Qed.

Lemma convertTextToSpeech_run (text outputPath key : jsstring) (w : World) :
  truthy key = true ->
  convertTextToSpeech sv text outputPath key w
  = match textToSpeech sv key text with
    | Return audio =>
        mkResult (Return tt) (with_file w outputPath audio)
          [StTextToSpeech text outputPath key; StWriteFile outputPath audio]
    | Throw e =>
        mkResult (Throw (lit "Failed to convert text to speech: " ++ e)) w
          [StTextToSpeech text outputPath key]
    end.
Proof.
  intros Hkey. unfold convertTextToSpeech. cbn. rewrite Hkey. cbn.
  by destruct (textToSpeech sv key text).
Qed.

Variables (id : Z) (w : World) (job : ProcessingJob).
Hypothesis Hjob : Storage.select_job (db w) id = Some job.

Let d1 := Storage.update_job id (job_updates processing (Some 20%Z) None None) (db w).
Let d2 := Storage.update_job id (job_updates summarizing (Some 40%Z) None None) d1.
Let d3 := Storage.update_job id (job_updates converting (Some 70%Z) None None) d2.
Let failed (m : jsstring) (d : Db) := Storage.update_job id (job_updates error None (Some m) None) d.
Let us := resolved_uploads (db w) job.
Let text := concat (segment sv <$> us).

Ltac run_start :=
  unfold processDocuments; cbn; rewrite Hjob; cbn;
  rewrite select_upload_update_job;
  fold (resolved_uploads (db w) job); fold us.

Ltac run_extracted Hex :=
  run_start;
  rewrite bool_decide_eq_false_2
    by (intros E; destruct us; [by inversion Hex | done]);
  rewrite extract_loop_spec; fold text; cbn;
  rewrite (processed_nonzero sv us Hex); cbn;
  rewrite !apiKeys_update_job;
  fold (geminiKey_of sv (db w)); fold (elevenlabsKey_of sv (db w)).

Lemma run_not_found (w0 : World) :
  Storage.select_job (db w0) id = None ->
  let m := lit "Processing job not found" in
  let u := job_updates error None (Some m) None in
  processDocuments sv id w0
  = mkResult (Throw m) (with_db w0 (Storage.update_job id u (db w0)))
      [StUpdateJob id u (Storage.update_job id u (db w0))].
Proof.
  intros Hnone. unfold processDocuments. cbn. rewrite Hnone. cbn.
  reflexivity.
Qed.

Lemma run_no_uploads :
  us = [] ->
  let m := lit "No uploads found" in
  processDocuments sv id w
  = mkResult (Throw m) (with_db w (failed m d1))
      [StUpdateJob id (job_updates processing (Some 20%Z) None None) d1;
       StUpdateJob id (job_updates error None (Some m) None) (failed m d1)].
Proof.
  intros Hus. unfold processDocuments. cbn. rewrite Hjob. cbn.
  rewrite select_upload_update_job. fold (resolved_uploads (db w) job). fold us.
  rewrite Hus. cbn. reflexivity.
Qed.

Lemma run_no_text :
  us <> [] ->
  Forall (fun u => extraction_succeeds sv u = false) us ->
  let m := lit "Failed to extract text from any documents." in
  processDocuments sv id w
  = mkResult (Throw m) (with_db w (failed m d1))
      [StUpdateJob id (job_updates processing (Some 20%Z) None None) d1;
       StUpdateJob id (job_updates error None (Some m) None) (failed m d1)].
Proof.
  intros Hus Hall. unfold processDocuments. cbn. rewrite Hjob. cbn.
  rewrite select_upload_update_job. fold (resolved_uploads (db w) job). fold us.
  rewrite bool_decide_eq_false_2 by (by destruct us).
  rewrite extract_loop_spec. cbn.
  rewrite (processed_zero sv us Hall).
  rewrite bool_decide_eq_true_2 by (destruct us; simpl; [done | lia]).
  cbn. reflexivity.
Qed.


Lemma run_no_key :
  Exists (fun u => extraction_succeeds sv u = true) us ->
  truthy_opt (geminiKey_of sv (db w)) = false ->
  let m := lit "Gemini API key is not available" in
  processDocuments sv id w
  = mkResult (Throw m) (with_db w (failed m d2))
      [StUpdateJob id (job_updates processing (Some 20%Z) None None) d1;
       StUpdateJob id (job_updates summarizing (Some 40%Z) None None) d2;
       StUpdateJob id (job_updates error None (Some m) None) (failed m d2)].
Proof.
  intros Hex Hkey. run_extracted Hex.
  rewrite Hkey. cbn. reflexivity.
Qed.

Lemma run_summary_failed (key e : jsstring) :
  Exists (fun u => extraction_succeeds sv u = true) us ->
  geminiKey_of sv (db w) = Some key ->
  truthy key = true ->
  generateContent sv key (build_prompt sv text (job_context job)) = Throw e ->
  let m := lit "Failed to generate summary with Gemini" in
  processDocuments sv id w
  = mkResult (Throw m) (with_db w (failed m d2))
      [StUpdateJob id (job_updates processing (Some 20%Z) None None) d1;
       StUpdateJob id (job_updates summarizing (Some 40%Z) None None) d2;
       StGenerateContent key (build_prompt sv text (job_context job));
       StUpdateJob id (job_updates error None (Some m) None) (failed m d2)].
Proof.
  intros Hex Hgk Hkey Hgen. run_extracted Hex.
  rewrite Hgk. cbn. rewrite Hkey. cbn.
  rewrite generateSummary_run by done. cbn. rewrite Hgen. cbn.
  reflexivity.
Qed.

Lemma run_completed (key narrative : jsstring) :
  Exists (fun u => extraction_succeeds sv u = true) us ->
  geminiKey_of sv (db w) = Some key ->
  truthy key = true ->
  generateContent sv key (build_prompt sv text (job_context job))
    = Return narrative ->
  let audioPath := path_join (UPLOADS_DIR sv) (audioFilename_at (clock w)) in
  let audio := audio_stage sv (elevenlabsKey_of sv (db w)) narrative audioPath in
  let s := summary_row narrative job (clock w) d3 in
  let d4 := Storage.insert_summary s d3 in
  let done := job_updates completed (Some 100%Z) None (Some (clock w)) in
  let d5 := Storage.update_job id done d4 in
  processDocuments sv id w
  = mkResult (Return s)
      (with_db (with_file w audioPath (snd audio)) d5)
      ([StUpdateJob id (job_updates processing (Some 20%Z) None None) d1;
        StUpdateJob id (job_updates summarizing (Some 40%Z) None None) d2;
        StGenerateContent key (build_prompt sv text (job_context job));
        StUpdateJob id (job_updates converting (Some 70%Z) None None) d3]
       ++ fst audio
       ++ [StWriteFile audioPath (snd audio);
           StCreateSummary s d4;
           StUpdateJob id done d5]).
Proof.
  intros Hex Hgk Hkey Hgen. run_extracted Hex.
  rewrite Hgk. cbn. rewrite Hkey. cbn.
  rewrite generateSummary_run by done. cbn. rewrite Hgen. cbn.
  unfold audio_stage.
  destruct (truthy_opt (elevenlabsKey_of sv (db w))) eqn:Hek; cbn.
  - destruct (elevenlabsKey_of sv (db w)) as [ek|] eqn:Heq; [|done].
    cbn in Hek. cbn.
    rewrite convertTextToSpeech_run by done.
    change (sr_text (extract_title_description narrative)) with narrative.
    destruct (textToSpeech sv ek narrative); cbn; reflexivity.
  - reflexivity.
Qed.

(** Every run on a stored job follows one of the five paths. *)
Lemma run_cases :
  us = []
  \/ (us <> [] /\ Forall (fun u => extraction_succeeds sv u = false) us)
  \/ (Exists (fun u => extraction_succeeds sv u = true) us /\
      (truthy_opt (geminiKey_of sv (db w)) = false
       \/ exists key, geminiKey_of sv (db w) = Some key /\ truthy key = true /\
            ((exists e, generateContent sv key
                         (build_prompt sv text (job_context job)) = Throw e)
             \/ (exists narrative,
                   generateContent sv key
                     (build_prompt sv text (job_context job))
                   = Return narrative)))).
Proof.
  destruct us as [|u0 us0] eqn:Hus; [by left | right].
  rewrite <- Hus. 
  destruct (decide (Exists (fun u => extraction_succeeds sv u = true) us))
    as [Hex|Hno].
  - right. split; [done|].
    destruct (geminiKey_of sv (db w)) as [key|] eqn:Hgk; [|by left].
    destruct (truthy key) eqn:Hkey; [|by left].
    right. exists key. repeat split; [done|].
    destruct (generateContent sv key _) as [n|e] eqn:Hgen; eauto.
  - left. split; [by rewrite Hus|].
    apply Forall_forall. intros u Hu.
    destruct (extraction_succeeds sv u) eqn:E; [|done].
    exfalso. apply Hno, Exists_exists. eauto.
Qed.

End Runs.

(** ** Failure handling of the pipeline *)

Lemma Forall_quiet_two (P : Step -> Prop) (a b : Step) :
  P a -> P b -> Forall P [a; b].
Proof. by repeat constructor. Qed.

(** C3. When extraction fails for every one of the (at least one)
    documents of a job, the run is rejected, the job is left in status
    [error] with the non-empty message of the rejection, its progress is
    still the 20 of the processing stage (the error update carries no
    progress), and neither Gemini nor ElevenLabs is called. *)
Theorem all_extractions_fail
    (sv : Services) (id : Z) (w : World) (job : ProcessingJob) :
  Storage.select_job (db w) id = Some job ->
  resolved_uploads (db w) job <> [] ->
  Forall (fun u => extraction_succeeds sv u = false)
         (resolved_uploads (db w) job) ->
  let r := processDocuments sv id w in
  exists message job',
    outcome r = Throw message /\
    Storage.select_job (db (final r)) id = Some job' /\
    job_status job' = error /\
    job_error job' = Some message /\
    message <> [] /\
    job_progress job' = 20%Z /\
    last (updates_of id (trace r))
      = Some (job_updates error None (Some message) None) /\
    Forall (fun s => calls_gemini s = false /\ calls_elevenlabs s = false)
           (trace r).
Proof.
  intros Hjob Hne Hall r. subst r.
  rewrite (run_no_text sv id w job Hjob Hne Hall). cbn.
  eexists _, _. split; [reflexivity|].
  split.
  { rewrite !select_job_update_job, Hjob. reflexivity. }
  cbn. rewrite Z.eqb_refl. cbn.
  repeat split; try done.
  apply Forall_quiet_two; by split.
Qed.

Lemma all_extractions_fail_witness :
  exists message job',
    outcome (Scenario.run [] [2%Z]) = Throw message /\
    Storage.select_job (db (final (Scenario.run [] [2%Z]))) 7 = Some job' /\
    job_status job' = error /\
    job_error job' = Some message /\
    message <> [] /\
    job_progress job' = 20%Z /\
    last (updates_of 7 (trace (Scenario.run [] [2%Z])))
      = Some (job_updates error None (Some message) None) /\
    Forall (fun s => calls_gemini s = false /\ calls_elevenlabs s = false)
           (trace (Scenario.run [] [2%Z])).
Proof.
  apply (all_extractions_fail Scenario.services 7 (Scenario.world7 [2%Z])
           (Scenario.job7 [2%Z])).
  - reflexivity.
  - vm_compute. discriminate.
  - vm_compute. repeat constructor.
Defined.

(** C4. When the run reaches the summarization stage and Gemini fails,
    the run is rejected and the job is left in status [error] with the
    message "Failed to generate summary with Gemini"; the summaries table
    is the same at every point of the run, no summary is inserted, and
    ElevenLabs is not called. *)
Theorem summarization_failure_is_fatal
    (sv : Services) (id : Z) (w : World) (job : ProcessingJob)
    (key e : jsstring) :
  Storage.select_job (db w) id = Some job ->
  Exists (fun u => extraction_succeeds sv u = true)
         (resolved_uploads (db w) job) ->
  geminiKey_of sv (db w) = Some key ->
  truthy key = true ->
  generateContent sv key
    (build_prompt sv (concat (segment sv <$> resolved_uploads (db w) job))
       (job_context job)) = Throw e ->
  let r := processDocuments sv id w in
  exists job',
    outcome r = Throw (lit "Failed to generate summary with Gemini") /\
    Storage.select_job (db (final r)) id = Some job' /\
    job_status job' = error /\
    job_error job' = Some (lit "Failed to generate summary with Gemini") /\
    Forall (fun d => summaries d = summaries (db w))
           (snapshots (trace r) ++ [db (final r)]) /\
    Forall (fun s => creates_summary s = false /\ calls_elevenlabs s = false)
           (trace r).
Proof.
  intros Hjob Hex Hgk Hkey Hgen r. subst r.
  rewrite (run_summary_failed sv id w job Hjob key e Hex Hgk Hkey Hgen). cbn.
  eexists. split; [reflexivity|]. split.
  { rewrite !select_job_update_job, Hjob. reflexivity. }
  cbn. repeat split; try done.
  - by repeat constructor.
  - by repeat constructor.
Qed.

Lemma summarization_failure_is_fatal_witness :
  exists job',
    outcome (Scenario.run [Scenario.rejected_keys] [1%Z])
      = Throw (lit "Failed to generate summary with Gemini") /\
    Storage.select_job
      (db (final (Scenario.run [Scenario.rejected_keys] [1%Z]))) 7
      = Some job' /\
    job_status job' = error /\
    job_error job' = Some (lit "Failed to generate summary with Gemini") /\
    Forall (fun d => summaries d = [])
           (snapshots (trace (Scenario.run [Scenario.rejected_keys] [1%Z]))
            ++ [db (final (Scenario.run [Scenario.rejected_keys] [1%Z]))]) /\
    Forall (fun s => creates_summary s = false /\ calls_elevenlabs s = false)
           (trace (Scenario.run [Scenario.rejected_keys] [1%Z])).
Proof.
  apply (summarization_failure_is_fatal Scenario.services 7
           (Scenario.world [Scenario.rejected_keys] [Scenario.job7 [1%Z]])
           (Scenario.job7 [1%Z]) (lit "expired") (lit "API key not valid")).
  - reflexivity.
  - vm_compute. repeat constructor.
  - reflexivity.
  - reflexivity.
  - reflexivity.
Defined.





(** C2. When extraction succeeds for at least one document of a job,
    whatever happens to the others, the first two writes of the run put
    the job in [processing] and then in [summarizing] with progress 40,
    with no error written before; every prompt the run sends to Gemini
    is built from the concatenation, in the order of the job's documents,
    of one labelled segment per document (its text, or the placeholder
    header for a failed extraction); and with a usable Gemini key that
    prompt is sent. *)
Theorem partial_extraction_reaches_summarizing
    (sv : Services) (id : Z) (w : World) (job : ProcessingJob) :
  Storage.select_job (db w) id = Some job ->
  Exists (fun u => extraction_succeeds sv u = true)
         (resolved_uploads (db w) job) ->
  let r := processDocuments sv id w in
  let text := concat (segment sv <$> resolved_uploads (db w) job) in
  exists d1 d2 rest,
    trace r
    = StUpdateJob id (job_updates processing (Some 20%Z) None None) d1
      :: StUpdateJob id (job_updates summarizing (Some 40%Z) None None) d2
      :: rest /\
    job_status <$> Storage.select_job d2 id = Some summarizing /\
    job_progress <$> Storage.select_job d2 id = Some 40%Z /\
    (forall key prompt,
       StGenerateContent key prompt ∈ trace r ->
       prompt = build_prompt sv text (job_context job)) /\
    (forall key,
       geminiKey_of sv (db w) = Some key -> truthy key = true ->
       StGenerateContent key (build_prompt sv text (job_context job))
         ∈ trace r).
Proof.
  intros Hjob Hex r text. subst r text.
  assert (Hd2 : forall d,
    d = Storage.update_job id (job_updates summarizing (Some 40%Z) None None)
          (Storage.update_job id
             (job_updates processing (Some 20%Z) None None) (db w)) ->
    job_status <$> Storage.select_job d id = Some summarizing /\
    job_progress <$> Storage.select_job d id = Some 40%Z).
  { intros d ->. rewrite !select_job_update_job, Hjob. by split. }
  destruct (run_cases sv w job)
    as [Hnil | [[_ Hall] | [_ [Hnokey | (key & Hgk & Hkey & Hgen)]]]].
  - rewrite Hnil in Hex. by inversion Hex.
  - exfalso. apply Exists_exists in Hex as (u & Hin & Hu).
    rewrite Forall_forall in Hall. specialize (Hall u Hin). congruence.
  - rewrite (run_no_key sv id w job Hjob Hex Hnokey). cbn.
    eexists _, _, _. split; [reflexivity|].
    split; [by apply Hd2|]. split; [by apply Hd2|]. split.
    + intros k p Hin. repeat (apply elem_of_cons in Hin as [Hin|Hin];
        [discriminate|]). by apply elem_of_nil in Hin.
    + intros k Hk Ht. rewrite Hk in Hnokey. cbn in Hnokey. congruence.
  - destruct Hgen as [[e Hgen] | [narrative Hgen]].
    + rewrite (run_summary_failed sv id w job Hjob key e Hex Hgk Hkey Hgen).
      cbn. eexists _, _, _. split; [reflexivity|].
      split; [by apply Hd2|]. split; [by apply Hd2|]. split.
      * intros k p Hin.
        repeat (apply elem_of_cons in Hin as [Hin|Hin];
                [congruence|]). by apply elem_of_nil in Hin.
      * intros k Hk _. assert (k = key) as -> by congruence.
        repeat constructor.
    + rewrite (run_completed sv id w job Hjob key narrative
                 Hex Hgk Hkey Hgen).
      cbn. eexists _, _, _. split; [reflexivity|].
      split; [by apply Hd2|]. split; [by apply Hd2|]. split.
      * intros k p Hin.
        do 2 (apply elem_of_cons in Hin as [Hin|Hin]; [discriminate|]).
        apply elem_of_cons in Hin as [Hin|Hin]; [congruence|].
        apply elem_of_cons in Hin as [Hin|Hin]; [discriminate|].
        apply elem_of_app in Hin as [Hin|Hin].
        { unfold audio_stage in Hin. destruct (truthy_opt _); cbn in Hin.
          - apply list_elem_of_singleton in Hin. discriminate.
          - by apply elem_of_nil in Hin. }
        repeat (apply elem_of_cons in Hin as [Hin|Hin]; [discriminate|]).
        by apply elem_of_nil in Hin.
      * intros k Hk _. assert (k = key) as -> by congruence.
        repeat constructor.
Qed.

Lemma partial_extraction_reaches_summarizing_witness :
  exists d1 d2 rest,
    trace (Scenario.run [] [2%Z; 3%Z])
    = StUpdateJob 7 (job_updates processing (Some 20%Z) None None) d1
      :: StUpdateJob 7 (job_updates summarizing (Some 40%Z) None None) d2
      :: rest /\
    job_status <$> Storage.select_job d2 7 = Some summarizing /\
    job_progress <$> Storage.select_job d2 7 = Some 40%Z /\
    (forall key prompt,
       StGenerateContent key prompt ∈ trace (Scenario.run [] [2%Z; 3%Z]) ->
       prompt
       = build_prompt Scenario.services
           (nl ++ nl
            ++ lit "--- Document: bad.pdf (Error: Could not extract content) ---"
            ++ nl ++ nl
            ++ nl ++ nl ++ lit "--- Document: b.pdf ---" ++ nl ++ nl
            ++ lit "content")
           None) /\
    (forall key,
       geminiKey_of Scenario.services
         (db (Scenario.world [] [Scenario.job7 [2%Z; 3%Z]])) = Some key ->
       truthy key = true ->
       StGenerateContent key
         (build_prompt Scenario.services
            (nl ++ nl
             ++ lit "--- Document: bad.pdf (Error: Could not extract content) ---"
             ++ nl ++ nl
             ++ nl ++ nl ++ lit "--- Document: b.pdf ---" ++ nl ++ nl
             ++ lit "content")
            None)
         ∈ trace (Scenario.run [] [2%Z; 3%Z])).
Proof.
  apply (partial_extraction_reaches_summarizing Scenario.services 7
           (Scenario.world [] [Scenario.job7 [2%Z; 3%Z]])
           (Scenario.job7 [2%Z; 3%Z])).
  - reflexivity.
  - vm_compute. apply Exists_cons_tl, Exists_cons_hd. reflexivity.
Defined.

(** ** Invariants of a job's life *)

Lemma snapshots_audio_stage sv key text path :
  snapshots (fst (audio_stage sv key text path)) = [].
Proof. unfold audio_stage. by destruct (truthy_opt key). Qed.

Lemma updates_of_audio_stage id sv key text path :
  updates_of id (fst (audio_stage sv key text path)) = [].
Proof. unfold audio_stage. by destruct (truthy_opt key). Qed.

Lemma snapshots_app (t1 t2 : list Step) :
  snapshots (t1 ++ t2) = snapshots t1 ++ snapshots t2.
Proof. apply omap_app. Qed.

Lemma updates_of_app id (t1 t2 : list Step) :
  updates_of id (t1 ++ t2) = updates_of id t1 ++ updates_of id t2.
Proof. apply omap_app. Qed.

Lemma observed_app id (t1 t2 : list Step) :
  observed id (t1 ++ t2) = observed id t1 ++ observed id t2.
Proof. unfold observed. by rewrite snapshots_app, omap_app. Qed.

Lemma observed_audio_stage id sv key text path :
  observed id (fst (audio_stage sv key text path)) = [].
Proof. unfold observed. by rewrite snapshots_audio_stage. Qed.

Ltac read_db Hjob :=
  repeat first
    [ rewrite select_job_update_job
    | rewrite select_job_insert_summary
    | rewrite select_summary_update_job
    | rewrite select_summary_insert_summary
    | rewrite Hjob ].

Ltac settle Hjob Hpending Hzero :=
  unfold observed;
  cbn; rewrite ?Z.eqb_refl; cbn; read_db Hjob; cbn;
  unfold job_step, status_with_progress, same_but_error_completedAt,
    job_updates; cbn;
  rewrite ?Hpending, ?Hzero; cbn;
  repeat split; eauto; try done; try lia;
  try (repeat constructor; cbn; eauto; done).

(** C7. Along the run of a freshly created job (status [pending],
    progress 0), from one observed record of the job to the next the
    progress never decreases and the status never moves to an earlier
    stage, and a record in a terminal status changes no further; every
    update that names a stage sets status and progress together (the error
    update sets status and message and leaves progress); exactly one
    update writes a terminal status; and the run ends with the job in
    that terminal status, which is the last record observed. *)
Theorem job_record_moves_forward
    (sv : Services) (id : Z) (w : World) (job : ProcessingJob) :
  Storage.select_job (db w) id = Some job ->
  job_status job = pending ->
  job_progress job = 0%Z ->
  let r := processDocuments sv id w in
  adjacent job_step (job :: observed id (trace r)) /\
  Forall status_with_progress (updates_of id (trace r)) /\
  length (List.filter terminal (omap set_status (updates_of id (trace r))))
    = 1%nat /\
  exists j,
    last (observed id (trace r)) = Some j /\
    Storage.select_job (db (final r)) id = Some j /\
    terminal (job_status j) = true.
Proof.
  intros Hjob Hpending Hzero r. subst r.
  destruct (run_cases sv w job)
    as [Hnil | [[Hne Hall] | [Hex [Hnokey | (key & Hgk & Hkey & Hgen)]]]].
  - rewrite (run_no_uploads sv id w job Hjob Hnil).
    settle Hjob Hpending Hzero.
  - rewrite (run_no_text sv id w job Hjob Hne Hall).
    settle Hjob Hpending Hzero.
  - rewrite (run_no_key sv id w job Hjob Hex Hnokey).
    settle Hjob Hpending Hzero.
  - destruct Hgen as [[e Hgen] | [narrative Hgen]].
    + rewrite (run_summary_failed sv id w job Hjob key e Hex Hgk Hkey Hgen).
      settle Hjob Hpending Hzero.
    + rewrite (run_completed sv id w job Hjob key narrative
                 Hex Hgk Hkey Hgen).
      cbn [trace final outcome].
      rewrite !observed_app, !updates_of_app, observed_audio_stage,
        updates_of_audio_stage.
      settle Hjob Hpending Hzero.
Qed.

Lemma job_record_moves_forward_witness :
  adjacent job_step
    (Scenario.job7 [1%Z] :: observed 7 (trace (Scenario.run [] [1%Z]))) /\
  Forall status_with_progress (updates_of 7 (trace (Scenario.run [] [1%Z])))
  /\
  length (List.filter terminal
            (omap set_status (updates_of 7 (trace (Scenario.run [] [1%Z])))))
    = 1%nat /\
  exists j,
    last (observed 7 (trace (Scenario.run [] [1%Z]))) = Some j /\
    Storage.select_job (db (final (Scenario.run [] [1%Z]))) 7 = Some j /\
    terminal (job_status j) = true.
Proof.
  apply (job_record_moves_forward Scenario.services 7
           (Scenario.world [] [Scenario.job7 [1%Z]]) (Scenario.job7 [1%Z]));
    reflexivity.
Defined.

(** The scenario end to end: one document that reads "Hello world", no
    context, the stub narrative, no ElevenLabs key. *)
Example scenario_end_to_end :
  exists summary job',
    outcome (Scenario.run [] [1%Z]) = Return summary /\
    sum_title summary = lit "Title Line" /\
    sum_description summary = lit "Body..." /\
    sum_text summary = Scenario.narrative /\
    sum_audioUrl summary = lit "/audio/audio-1730000000000.mp3" /\
    Storage.select_job (db (final (Scenario.run [] [1%Z]))) 7 = Some job' /\
    job_status job' = completed /\
    job_progress job' = 100%Z.
Proof. eexists _, _. vm_compute. by repeat split. Qed.

(** The records the run of the scenario goes through: the four stages,
    with the summary inserted between the last two. *)
Example scenario_statuses :
  (fun j => (job_status j, job_progress j))
    <$> observed 7 (trace (Scenario.run [] [1%Z]))
  = [(processing, 20%Z); (summarizing, 40%Z); (converting, 70%Z);
     (converting, 70%Z); (completed, 100%Z)].
Proof. vm_compute. reflexivity. Qed.

(** C6 as stated fails: in the scenario, the fourth database an observer
    can find holds the summary of job 7 while the job is still
    [converting]. *)
Lemma summary_visible_before_completed :
  exists d,
    snapshots (trace (Scenario.run [] [1%Z])) !! 3%nat = Some d /\
    job_status <$> Storage.select_job d 7 = Some converting /\
    is_Some (Storage.select_summary_by_job d 7) /\
    ~ (is_Some (Storage.select_summary_by_job d 7)
       <-> job_status <$> Storage.select_job d 7 = Some completed).
Proof.
  eexists. split; [vm_compute; reflexivity|].
  assert (Hs : job_status <$> Storage.select_job
             (default (db (Scenario.world [] []))
                (snapshots (trace (Scenario.run [] [1%Z])) !! 3%nat)) 7
          = Some converting) by (vm_compute; reflexivity).
  assert (Hsum : is_Some (Storage.select_summary_by_job
             (default (db (Scenario.world [] []))
                (snapshots (trace (Scenario.run [] [1%Z])) !! 3%nat)) 7))
    by (vm_compute; eauto).
  split; [exact Hs|]. split; [exact Hsum|].
  intros [Hiff _]. specialize (Hiff Hsum).
  change (job_status <$> Storage.select_job
             (default (db (Scenario.world [] []))
                (snapshots (trace (Scenario.run [] [1%Z])) !! 3%nat)) 7
          = Some completed) in Hiff.
  rewrite Hs in Hiff. discriminate.
Qed.

(** C6, as amended. Along the run of a pending job that has no summary
    yet, at every database an observer can find (the one the run starts
    from included): if the job is [completed] then a summary of the job
    is there, and if a summary of the job is there then the job is
    [converting] or [completed]. When the run has ended, a summary of the
    job is there if and only if the job is [completed]. *)
Theorem summary_when_completed
    (sv : Services) (id : Z) (w : World) (job : ProcessingJob) :
  Storage.select_job (db w) id = Some job ->
  job_status job = pending ->
  Storage.select_summary_by_job (db w) id = None ->
  let r := processDocuments sv id w in
  Forall (fun d =>
            exists j,
              Storage.select_job d id = Some j /\
              (job_status j = completed ->
               is_Some (Storage.select_summary_by_job d id)) /\
              (is_Some (Storage.select_summary_by_job d id) ->
               job_status j = converting \/ job_status j = completed))
         (db w :: snapshots (trace r)) /\
  exists j,
    Storage.select_job (db (final r)) id = Some j /\
    (is_Some (Storage.select_summary_by_job (db (final r)) id)
     <-> job_status j = completed).
Proof.
  intros Hjob Hpending Hnone r. subst r.
  assert (Hid : job_id job = id) by (by apply select_job_id with (d := db w)).
  assert (Hno : ~ is_Some (@None Summary)) by (by intros [? ?]).
  destruct (run_cases sv w job)
    as [Hnil | [[Hne Hall] | [Hex [Hnokey | (key & Hgk & Hkey & Hgen)]]]].
  - rewrite (run_no_uploads sv id w job Hjob Hnil). cbn.
    split.
    + repeat constructor; eexists; read_db Hjob; rewrite ?Hnone;
        (split; [reflexivity|]); cbn; rewrite ?Hpending; split; done.
    + eexists. read_db Hjob. rewrite ?Hnone. split; [reflexivity|].
      cbn. split; done.
  - rewrite (run_no_text sv id w job Hjob Hne Hall). cbn.
    split.
    + repeat constructor; eexists; read_db Hjob; rewrite ?Hnone;
        (split; [reflexivity|]); cbn; rewrite ?Hpending; split; done.
    + eexists. read_db Hjob. rewrite ?Hnone. split; [reflexivity|].
      cbn. split; done.
  - rewrite (run_no_key sv id w job Hjob Hex Hnokey). cbn.
    split.
    + repeat constructor; eexists; read_db Hjob; rewrite ?Hnone;
        (split; [reflexivity|]); cbn; rewrite ?Hpending; split; done.
    + eexists. read_db Hjob. rewrite ?Hnone. split; [reflexivity|].
      cbn. split; done.
  - destruct Hgen as [[e Hgen] | [narrative Hgen]].
    + rewrite (run_summary_failed sv id w job Hjob key e Hex Hgk Hkey Hgen).
      cbn. split.
      * repeat constructor; eexists; read_db Hjob; rewrite ?Hnone;
          (split; [reflexivity|]); cbn; rewrite ?Hpending; split; done.
      * eexists. read_db Hjob. rewrite ?Hnone. split; [reflexivity|].
        cbn. split; done.
    + rewrite (run_completed sv id w job Hjob key narrative
                 Hex Hgk Hkey Hgen).
      cbn [trace final outcome db with_db].
      rewrite !snapshots_app, snapshots_audio_stage. cbn.
      assert (Hrow : forall d,
        Z.eqb (sum_processingJobId (summary_row narrative job (clock w) d)) id
        = true).
      { intros d. apply Z.eqb_eq. exact Hid. }
      split.
      * repeat constructor; eexists; read_db Hjob;
          rewrite ?Hnone, ?Hrow;
          (split; [reflexivity|]); cbn; rewrite ?Hpending;
          split; try done; eauto.
      * eexists. read_db Hjob. rewrite ?Hnone, ?Hrow.
        split; [reflexivity|]. cbn. split; eauto.
Qed.

Lemma summary_when_completed_witness :
  Forall (fun d =>
            exists j,
              Storage.select_job d 7 = Some j /\
              (job_status j = completed ->
               is_Some (Storage.select_summary_by_job d 7)) /\
              (is_Some (Storage.select_summary_by_job d 7) ->
               job_status j = converting \/ job_status j = completed))
         (db (Scenario.world [] [Scenario.job7 [1%Z]])
          :: snapshots (trace (Scenario.run [] [1%Z]))) /\
  exists j,
    Storage.select_job (db (final (Scenario.run [] [1%Z]))) 7 = Some j /\
    (is_Some (Storage.select_summary_by_job
                (db (final (Scenario.run [] [1%Z]))) 7)
     <-> job_status j = completed).
Proof.
  apply (summary_when_completed Scenario.services 7
           (Scenario.world [] [Scenario.job7 [1%Z]]) (Scenario.job7 [1%Z]));
    reflexivity.
Defined.

(** ** The client status poller *)

Lemma poller_run_stopped (fetches : list (Outcome StatusBody))
    (st : Poller.State) :
  Poller.interval_set st = false -> Poller.run fetches st = st.
Proof.
  intros Hoff. unfold Poller.run.
  induction fetches as [|f fetches IH]; simpl; [done|].
  unfold Poller.tick at 2. by rewrite Hoff.
Qed.

(** C8 as stated fails: on a [completed] response that carries no
    summary the poller neither stops nor calls a handler; after three
    such responses it has polled three times and its interval is still
    set. *)
Lemma completed_without_summary_keeps_polling :
  let st := Poller.run [Return Scenario.completed_without_summary;
                        Return Scenario.completed_without_summary;
                        Return Scenario.completed_without_summary]
                       Poller.started in
  Poller.polls st = 3%nat /\ Poller.calls st = [] /\
  Poller.interval_set st = true.
Proof. vm_compute. by repeat split. Qed.

(** C8, as amended. A poll of a running, mounted poller that observes
    [error] clears the interval and calls the failure handler once, with
    the response's error when that is present and non-empty and with a
    generic message otherwise; one that observes [completed] with a
    summary clears the interval and calls the completion handler once with
    that summary; in both cases no later timer period polls or calls
    anything. A [completed] response without a summary sets the progress
    to 100 and leaves the interval set, so the next period polls again. *)
Theorem poller_stops_on_terminal
    (st : Poller.State) (statusResult : StatusBody)
    (later : list (Outcome StatusBody)) :
  Poller.interval_set st = true ->
  Poller.isMounted st = true ->
  let st' := Poller.tick st (Return statusResult) in
  Poller.polls st' = S (Poller.polls st) /\
  (st_status statusResult = lit "error" ->
   Poller.calls st'
   = Poller.calls st
     ++ [Poller.onError
           match st_error statusResult with
           | Some (c :: e) => c :: e
           | _ => lit "An unknown error occurred during processing."
           end] /\
   Poller.interval_set st' = false /\
   Poller.run later st' = st') /\
  (forall summary,
     st_status statusResult = lit "completed" ->
     st_summary statusResult = Some summary ->
     Poller.calls st'
     = Poller.calls st ++ [Poller.onProcessingComplete summary] /\
     Poller.interval_set st' = false /\
     Poller.run later st' = st') /\
  (st_status statusResult = lit "completed" ->
   st_summary statusResult = None ->
   Poller.calls st' = Poller.calls st /\
   Poller.progress st' = 100%Z /\
   Poller.interval_set st' = true /\
   forall next, Poller.polls (Poller.tick st' next) = S (Poller.polls st')).
Proof.
  intros Hset Hmounted st'. subst st'.
  unfold Poller.tick. rewrite Hset.
  unfold Poller.callback. cbn [Poller.count_poll Poller.isMounted].
  rewrite Hmounted. cbn [negb].
  split.
  { unfold Poller.on_status.
    repeat (case_bool_decide; cbn; [by repeat case_match|]).
    by repeat case_match. }
  split; [|split].
  - intros Hstatus. unfold Poller.on_status. rewrite Hstatus.
    change (bool_decide (lit "error" = lit "extracting")) with false.
    change (bool_decide (lit "error" = lit "processing")) with false.
    change (bool_decide (lit "error" = lit "summarizing")) with false.
    change (bool_decide (lit "error" = lit "converting")) with false.
    change (bool_decide (lit "error" = lit "completed")) with false.
    change (bool_decide (lit "error" = lit "error")) with true.
    cbn. split; [|split; [done|by apply poller_run_stopped]].
    by destruct (st_error statusResult) as [[|c e]|].
  - intros summary Hstatus Hsummary. unfold Poller.on_status.
    rewrite Hstatus, Hsummary.
    change (bool_decide (lit "completed" = lit "extracting")) with false.
    change (bool_decide (lit "completed" = lit "processing")) with false.
    change (bool_decide (lit "completed" = lit "summarizing")) with false.
    change (bool_decide (lit "completed" = lit "converting")) with false.
    change (bool_decide (lit "completed" = lit "completed")) with true.
    cbn. split; [done|]. split; [done|]. by apply poller_run_stopped.
  - intros Hstatus Hsummary. unfold Poller.on_status.
    rewrite Hstatus, Hsummary.
    change (bool_decide (lit "completed" = lit "extracting")) with false.
    change (bool_decide (lit "completed" = lit "processing")) with false.
    change (bool_decide (lit "completed" = lit "summarizing")) with false.
    change (bool_decide (lit "completed" = lit "converting")) with false.
    change (bool_decide (lit "completed" = lit "completed")) with true.
    cbn. rewrite Hset. repeat split; try done.
    intros next. unfold Poller.callback. cbn. rewrite Hmounted. cbn.
    destruct next as [sr|e]; cbn; [|done].
    unfold Poller.on_status.
    repeat (case_bool_decide; cbn; [by repeat case_match|]).
    by repeat case_match.
Qed.

Lemma poller_stops_on_terminal_witness :
  Poller.polls (Poller.tick Poller.started (Return Scenario.failed_response))
    = 1%nat /\
  Poller.calls (Poller.tick Poller.started (Return Scenario.failed_response))
    = [Poller.onError (lit "No uploads found")] /\
  Poller.run [Return Scenario.completed_without_summary]
    (Poller.tick Poller.started (Return Scenario.failed_response))
  = Poller.tick Poller.started (Return Scenario.failed_response).
Proof.
  destruct (poller_stops_on_terminal Poller.started Scenario.failed_response
              [Return Scenario.completed_without_summary]
              eq_refl eq_refl) as (Hpolls & Herror & _ & _).
  destruct (Herror eq_refl) as (Hcalls & _ & Hrun).
  exact (conj Hpolls (conj Hcalls Hrun)).
Defined.

(** ** Validation of a processing request *)












(** ** The stored API keys *)





(** * Further properties *)

(** ** The storage methods *)

Lemma select_upload_Some (d : Db) (id : Z) (u : Upload) :
  Storage.select_upload d id = Some u -> up_id u = id /\ u ∈ uploads d.
Proof.
  unfold Storage.select_upload. intros E.
  apply head_Some_elem_of, list_elem_of_In, filter_In in E as [Hin E].
  split; [by apply Z.eqb_eq | by apply list_elem_of_In].
Qed.

Lemma select_upload_stored (d : Db) (id : Z) :
  is_Some (Storage.select_upload d id) <-> stored_upload d id = true.
Proof.
  unfold Storage.select_upload, stored_upload.
  induction (uploads d) as [|u l IH]; simpl.
  - split; [by intros [? ?] | done].
  - destruct (Z.eqb (up_id u) id); simpl; [by split; eauto | exact IH].
Qed.

(** [getUploads] reads only: it returns, in the order of [ids] and with
    their repetitions, the stored rows of exactly those ids that name a
    stored upload, and passes over the others. *)
Theorem getUploads_keeps_order (ids : list Z) (w : World) :
  exists rows,
    Storage.getUploads ids w = mkResult (Return rows) w [] /\
    up_id <$> rows = List.filter (stored_upload (db w)) ids /\
    Forall (fun u => u ∈ uploads (db w)) rows /\
    (length rows <= length ids)%nat.
Proof.
  exists (omap (Storage.select_upload (db w)) ids).
  split; [reflexivity|].
  induction ids as [|id ids (IH1 & IH2 & IH3)]; [by repeat split|].
  cbn [omap list_omap List.filter].
  destruct (Storage.select_upload (db w) id) as [u|] eqn:E.
  - destruct (select_upload_Some _ _ _ E) as [Hid Hin].
    assert (Hs : stored_upload (db w) id = true)
      by (apply select_upload_stored; eauto).
    rewrite Hs. cbn. repeat split.
    + by rewrite Hid, IH1.
    + by constructor.
    + lia.
  - assert (Hs : stored_upload (db w) id = false).
    { destruct (stored_upload (db w) id) eqn:Hs; [|done].
      apply select_upload_stored in Hs as [? Hs]. congruence. }
    rewrite Hs. repeat split; [done | done | cbn; lia].
Qed.

Lemma select_job_update_job_ne (id id' : Z) (u : JobUpdates) (d : Db) :
  id' <> id ->
  Storage.select_job (Storage.update_job id u d) id' = Storage.select_job d id'.
Proof.
  intros Hne. unfold Storage.select_job, Storage.update_job. simpl.
  induction (processingJobs d) as [|j l IH]; simpl; [done|].
  destruct (Z.eqb_spec (job_id j) id) as [Hj|Hj]; simpl.
  - destruct (Z.eqb_spec (job_id j) id'); [congruence | exact IH].
  - destruct (Z.eqb (job_id j) id'); [done | exact IH].
Qed.

Lemma update_job_absent (id : Z) (u : JobUpdates) (d : Db) :
  Storage.select_job d id = None -> Storage.update_job id u d = d.
Proof.
  unfold Storage.select_job, Storage.update_job. intros Hnone.
  destruct d as [ks kn us js jn ss sn]. simpl in *. f_equal.
  induction js as [|j js IH]; simpl in *; [done|].
  destruct (Z.eqb (job_id j) id); [done|]. by rewrite IH.
Qed.

(** [updateProcessingJob] changes the row of its job and nothing else:
    it returns the updated row, every other job reads as before, the other
    tables and the files are untouched, and with an id that names no job
    it returns [undefined] and leaves the database as it was. *)
Theorem updateProcessingJob_touches_one_row
    (id : Z) (updates : JobUpdates) (w : World) :
  let r := Storage.updateProcessingJob id updates w in
  outcome r
  = Return (Storage.apply_updates updates <$> Storage.select_job (db w) id) /\
  (forall id', id' <> id ->
     Storage.select_job (db (final r)) id' = Storage.select_job (db w) id') /\
  uploads (db (final r)) = uploads (db w) /\
  summaries (db (final r)) = summaries (db w) /\
  apiKeys (db (final r)) = apiKeys (db w) /\
  files (final r) = files w /\
  (Storage.select_job (db w) id = None ->
   outcome r = Return None /\ db (final r) = db w).
Proof.
  cbn. rewrite select_job_update_job. repeat split.
  - intros id' Hne. by apply select_job_update_job_ne.
  - by rewrite H.
  - by apply update_job_absent.
Qed.





(** ** The run as a whole *)

Ltac run_paths sv id w :=
  let job := fresh "job" in
  let Hjob := fresh "Hjob" in
  destruct (Storage.select_job (db w) id) as [job|] eqn:Hjob;
  [ let Hnil := fresh "Hnil" in
    let Hne := fresh "Hne" in
    let Hall := fresh "Hall" in
    let Hex := fresh "Hex" in
    let Hnokey := fresh "Hnokey" in
    let key := fresh "key" in
    let Hgk := fresh "Hgk" in
    let Hkey := fresh "Hkey" in
    let e := fresh "e" in
    let narrative := fresh "narrative" in
    let Hgen := fresh "Hgen" in
    destruct (run_cases sv w job)
      as [Hnil | [[Hne Hall] | [Hex [Hnokey |
           (key & Hgk & Hkey & [[e Hgen] | [narrative Hgen]])]]]];
    [ rewrite (run_no_uploads sv id w job Hjob Hnil)
    | rewrite (run_no_text sv id w job Hjob Hne Hall)
    | rewrite (run_no_key sv id w job Hjob Hex Hnokey)
    | rewrite (run_summary_failed sv id w job Hjob key e Hex Hgk Hkey Hgen)
    | rewrite (run_completed sv id w job Hjob key narrative
                 Hex Hgk Hkey Hgen) ]
  | rewrite (run_not_found sv id w Hjob) ].

Ltac other_jobs :=
  repeat first
    [ rewrite select_job_update_job_ne by done
    | rewrite select_job_insert_summary ].

(** A run works on its own job only: every other job reads as before,
    the uploads and key tables and the clock are untouched, the summaries
    table gains exactly the summary the run returns (and nothing when the
    run is rejected), and no file other than the run's audio file is
    written. *)
Theorem processDocuments_touches_own_job
    (sv : Services) (id : Z) (w : World) :
  let r := processDocuments sv id w in
  let audioPath := path_join (UPLOADS_DIR sv) (audioFilename_at (clock w)) in
  (forall id', id' <> id ->
     Storage.select_job (db (final r)) id' = Storage.select_job (db w) id') /\
  uploads (db (final r)) = uploads (db w) /\
  apiKeys (db (final r)) = apiKeys (db w) /\
  clock (final r) = clock w /\
  summaries (db (final r))
  = summaries (db w)
    ++ match outcome r with Return summary => [summary] | Throw _ => [] end /\
  (forall p, p <> audioPath -> files (final r) !! p = files w !! p).
Proof.
  intros r audioPath. subst r audioPath.
  run_paths sv id w; cbn;
    (split; [intros id' Hne'; other_jobs; reflexivity|]);
    (split; [reflexivity|]); (split; [reflexivity|]);
    (split; [reflexivity|]);
    (split; [try (symmetry; apply app_nil_r); try reflexivity|]);
    intros p Hp; try reflexivity.
  by apply lookup_insert_ne.
Qed.

(** A run on an id that names no job is rejected with "Processing job
    not found": the database and the files stay as they were and no
    service is called. *)
Theorem processDocuments_unknown_job (sv : Services) (id : Z) (w : World) :
  Storage.select_job (db w) id = None ->
  let r := processDocuments sv id w in
  outcome r = Throw (lit "Processing job not found") /\
  final r = w /\
  Forall (fun s => calls_gemini s = false /\ calls_elevenlabs s = false)
         (trace r).
Proof.
  intros Hnone r. subst r. rewrite (run_not_found sv id w Hnone). cbn.
  split; [reflexivity|]. split.
  - rewrite update_job_absent by done. by destruct w.
  - by repeat constructor.
Qed.

Lemma processDocuments_unknown_job_witness :
  outcome (processDocuments Scenario.services 7 (Scenario.world [] []))
    = Throw (lit "Processing job not found") /\
  final (processDocuments Scenario.services 7 (Scenario.world [] []))
    = Scenario.world [] [] /\
  Forall (fun s => calls_gemini s = false /\ calls_elevenlabs s = false)
         (trace (processDocuments Scenario.services 7 (Scenario.world [] []))).
Proof.
  exact (processDocuments_unknown_job Scenario.services 7
           (Scenario.world [] []) eq_refl).
Defined.

Lemma head_take_1 {A} (l : list A) : head (take 1 l) = head l.
Proof. by destruct l. Qed.

(** The key a run uses is the stored one when the stored row has a
    non-empty key, and the environment variable otherwise; this holds for
    every call the run makes to Gemini and to ElevenLabs, and no call is
    made with an empty key. *)
Theorem stored_keys_take_precedence (sv : Services) (id : Z) (w : World) :
  let r := processDocuments sv id w in
  (forall key prompt,
     StGenerateContent key prompt ∈ trace r ->
     truthy key = true /\
     match head (apiKeys (db w)) with
     | Some row =>
         if truthy (key_gemini row) then key = key_gemini row
         else GEMINI_API_KEY sv = Some key
     | None => GEMINI_API_KEY sv = Some key
     end) /\
  (forall text path key,
     StTextToSpeech text path key ∈ trace r ->
     truthy key = true /\
     match head (apiKeys (db w)) with
     | Some row =>
         if truthy (key_elevenlabs row) then key = key_elevenlabs row
         else ELEVENLABS_API_KEY sv = Some key
     | None => ELEVENLABS_API_KEY sv = Some key
     end).
Proof.
  intros r. subst r.
  assert (Hg : forall key,
    geminiKey_of sv (db w) = Some key -> truthy key = true ->
    match head (apiKeys (db w)) with
    | Some row =>
        if truthy (key_gemini row) then key = key_gemini row
        else GEMINI_API_KEY sv = Some key
    | None => GEMINI_API_KEY sv = Some key
    end).
  { intros key. unfold geminiKey_of, or_else. rewrite head_take_1.
    destruct (head (apiKeys (db w))) as [row|]; cbn; [|done].
    destruct (truthy (key_gemini row)); [congruence | done]. }
  assert (He : forall key,
    elevenlabsKey_of sv (db w) = Some key -> truthy key = true ->
    match head (apiKeys (db w)) with
    | Some row =>
        if truthy (key_elevenlabs row) then key = key_elevenlabs row
        else ELEVENLABS_API_KEY sv = Some key
    | None => ELEVENLABS_API_KEY sv = Some key
    end).
  { intros key. unfold elevenlabsKey_of, or_else. rewrite head_take_1.
    destruct (head (apiKeys (db w))) as [row|]; cbn; [|done].
    destruct (truthy (key_elevenlabs row)); [congruence | done]. }
  run_paths sv id w; cbn;
    (split; [intros k prompt Hin | intros text path k Hin]);
    repeat (apply elem_of_cons in Hin as [Hin|Hin]; [try discriminate|]);
    try (by apply elem_of_nil in Hin).
  - injection Hin as -> ->. by split; [|apply Hg].
  - injection Hin as -> ->. by split; [|apply Hg].
  - apply elem_of_app in Hin as [Hin|Hin].
    + unfold audio_stage in Hin. destruct (truthy_opt _); cbn in Hin.
      * apply list_elem_of_singleton in Hin. discriminate.
      * by apply elem_of_nil in Hin.
    + repeat (apply elem_of_cons in Hin as [Hin|Hin]; [discriminate|]).
      by apply elem_of_nil in Hin.
  - apply elem_of_app in Hin as [Hin|Hin].
    + unfold audio_stage in Hin.
      destruct (elevenlabsKey_of sv (db w)) as [ek|] eqn:Hek; cbn in Hin;
        [|by apply elem_of_nil in Hin].
      destruct (truthy ek) eqn:Ht; cbn in Hin;
        [|by apply elem_of_nil in Hin].
      apply list_elem_of_singleton in Hin. injection Hin as -> -> ->.
      split; [done | by apply He].
    + repeat (apply elem_of_cons in Hin as [Hin|Hin]; [discriminate|]).
      by apply elem_of_nil in Hin.
Qed.

(** ** Requests, runs and what the status route shows *)

Lemma Db_wf_update_job (id : Z) (u : JobUpdates) (d : Db) :
  Db_wf d -> Db_wf (Storage.update_job id u d).
Proof.
  intros [Hj Hs]. split; [|exact Hs].
  unfold Storage.update_job. cbn.
  apply Forall_forall. intros j Hin.
  apply list_elem_of_In, in_map_iff in Hin as (j0 & <- & Hin0).
  rewrite Forall_forall in Hj. apply list_elem_of_In, Hj in Hin0.
  by destruct (Z.eqb (job_id j0) id).
Qed.

Lemma Db_wf_insert_summary (s : Summary) (d : Db) :
  Db_wf d -> (sum_processingJobId s < processingJobs_seq d)%Z ->
  Db_wf (Storage.insert_summary s d).
Proof.
  intros [Hj Hs] Hlt. split; [exact Hj|].
  unfold Storage.insert_summary. cbn.
  apply Forall_app. split; [exact Hs | by constructor].
Qed.

Lemma Db_wf_insert_job (insertJob : InsertProcessingJob) (now : N) (d : Db) :
  Db_wf d -> Db_wf (Storage.insert_job (Storage.new_job insertJob now d) d).
Proof.
  intros [Hj Hs]. split; unfold Storage.insert_job; cbn.
  - apply Forall_app. split.
    + eapply Forall_impl; [exact Hj|]. cbn. intros. lia.
    + constructor; [cbn; lia | constructor].
  - eapply Forall_impl; [exact Hs|]. cbn. intros. lia.
Qed.

Lemma select_job_lt (d : Db) (id : Z) (job : ProcessingJob) :
  Db_wf d -> Storage.select_job d id = Some job ->
  (job_id job < processingJobs_seq d)%Z.
Proof.
  intros [Hj _] E. unfold Storage.select_job in E.
  apply head_Some_elem_of, list_elem_of_In, filter_In in E as [Hin _].
  rewrite Forall_forall in Hj. by apply Hj, list_elem_of_In.
Qed.

(** What a valid request does: the job is inserted, then the background
    run works on the database that holds it; whatever the run settles to,
    the answer is 201 with the id of the job. *)
Lemma serve_process_valid (sv : Services) (body : Json) (w : World)
    (ids : list Z) (context : option UserContext) :
  parse_process_request body = Some (ids, context) ->
  let row := Storage.new_job
               {| ins_uploadIds := JArr (JNum <$> ids);
                  ins_context := context |} (clock w) (db w) in
  let w1 := with_db w (Storage.insert_job row (db w)) in
  let run := processDocuments sv (processingJobs_seq (db w)) w1 in
  serve_process sv body w
  = mkResult (Return (Created201 (processingJobs_seq (db w))))
      (final run)
      (StCreateJob row (Storage.insert_job row (db w)) :: trace run).
Proof.
  intros Hparse row w1 run. subst row w1 run.
  unfold serve_process, post_api_process. rewrite Hparse. cbn.
  destruct (processDocuments sv _ _) as [[s|m] wf t]; cbn;
    by rewrite ?app_nil_r.
Qed.

(** Serial keys are never reused: a run, and a request together with its
    background run, leave a well-formed database well-formed. *)
Theorem runs_keep_database_well_formed
    (sv : Services) (id : Z) (body : Json) (w : World) :
  Db_wf (db w) ->
  Db_wf (db (final (processDocuments sv id w))) /\
  Db_wf (db (final (serve_process sv body w))).
Proof.
  assert (Hrun : forall id0 w0,
    Db_wf (db w0) -> Db_wf (db (final (processDocuments sv id0 w0)))).
  { intros id0 w0 Hwf. run_paths sv id0 w0; cbn;
      repeat first [ apply Db_wf_update_job | apply Db_wf_insert_summary ];
      try done.
    change (job_id job < processingJobs_seq (db w0))%Z.
    by apply select_job_lt with (id := id0). }
  intros Hwf. split; [by apply Hrun|].
  destruct (parse_process_request body) as [[ids context]|] eqn:Hparse.
  - rewrite (serve_process_valid sv body w ids context Hparse). cbn.
    apply Hrun. cbn. by apply Db_wf_insert_job.
  - unfold serve_process, post_api_process. rewrite Hparse. by cbn.
Qed.

Lemma runs_keep_database_well_formed_witness :
  Db_wf (db (final (processDocuments Scenario.services 7
                      (Scenario.world [] [Scenario.job7 [1%Z]])))) /\
  Db_wf (db (final (serve_process Scenario.services (Scenario.request [1%Z])
                      (Scenario.world [] [Scenario.job7 [1%Z]])))).
Proof.
  apply (runs_keep_database_well_formed Scenario.services 7
           (Scenario.request [1%Z])
           (Scenario.world [] [Scenario.job7 [1%Z]])).
  split; vm_compute; repeat constructor.
Defined.


Ltac read_rows Hjob :=
  repeat first
    [ rewrite select_job_update_job
    | rewrite select_job_insert_summary
    | rewrite select_summary_update_job
    | rewrite select_summary_insert_summary
    | rewrite Hjob ].



Lemma status_name_completed (s : Status) :
  status_name s = lit "completed" <-> s = completed.
Proof. destruct s; split; intros H; try done; vm_compute in H; done. Qed.

Lemma status_name_error (s : Status) :
  status_name s = lit "error" <-> s = error.
Proof. destruct s; split; intros H; try done; vm_compute in H; done. Qed.

(** What the status route answers for a job row and the summary lookup
    it makes. *)
Lemma status_body_of_row (d : Db) (id : Z) (job : ProcessingJob) :
  Storage.select_job d id = Some job ->
  status_body d id
  = Some {| st_status := status_name (job_status job);
            st_progress := job_progress job;
            st_summary :=
              if decide (job_status job = completed)
              then summary_view
                     <$> Storage.select_summary_by_job d (job_id job)
              else None;
            st_error :=
              if truthy_opt (job_error job) then job_error job else None |}.
Proof. intros E. unfold status_body. by rewrite E. Qed.

(** The answers of the status route along the run of a fresh job (status
    [pending], progress 0, no error), at every database an observer can
    find: the answer carries a summary exactly when its status is
    "completed", carries an error exactly when its status is "error",
    and its progress lies between 0 and 100. *)
Theorem status_route_along_run
    (sv : Services) (id : Z) (w : World) (job : ProcessingJob) :
  Storage.select_job (db w) id = Some job ->
  job_status job = pending ->
  job_progress job = 0%Z ->
  job_error job = None ->
  let r := processDocuments sv id w in
  Forall (fun d =>
            exists body,
              status_body d id = Some body /\
              (is_Some (st_summary body)
               <-> st_status body = lit "completed") /\
              (is_Some (st_error body) <-> st_status body = lit "error") /\
              (0 <= st_progress body <= 100)%Z)
         (db w :: snapshots (trace r)).
Proof.
  intros Hjob Hpending Hzero Herror r. subst r.
  assert (Hgood : forall d j,
    Storage.select_job d id = Some j ->
    (job_status j = completed ->
     is_Some (Storage.select_summary_by_job d (job_id j))) ->
    (is_Some (job_error j) <-> job_status j = error) ->
    (forall m, job_error j = Some m -> truthy m = true) ->
    (0 <= job_progress j <= 100)%Z ->
    exists body,
      status_body d id = Some body /\
      (is_Some (st_summary body) <-> st_status body = lit "completed") /\
      (is_Some (st_error body) <-> st_status body = lit "error") /\
      (0 <= st_progress body <= 100)%Z).
  { intros d j Hj Hsum Herr Htruthy Hprog.
    eexists. split; [by apply status_body_of_row|]. cbn.
    rewrite status_name_completed, status_name_error. repeat split;
      try lia.
    - destruct (decide (job_status j = completed)); [done|].
      by intros [? ?].
    - intros Hc. destruct (decide (job_status j = completed)); [|done].
      destruct (Hsum Hc) as [s Hs]. rewrite Hs. by eexists.
    - destruct (job_error j) as [m|] eqn:Em; cbn.
      + intros _. apply Herr. by eexists.
      + by intros [? ?].
    - intros He. apply Herr in He as [m Hm]. rewrite Hm. cbn.
      rewrite (Htruthy m Hm). by eexists. }
  destruct (run_cases sv w job)
    as [Hnil | [[Hne Hall] | [Hex [Hnokey |
         (key & Hgk & Hkey & [[e Hgen] | [narrative Hgen]])]]]].
  1: rewrite (run_no_uploads sv id w job Hjob Hnil).
  2: rewrite (run_no_text sv id w job Hjob Hne Hall).
  3: rewrite (run_no_key sv id w job Hjob Hex Hnokey).
  4: rewrite (run_summary_failed sv id w job Hjob key e Hex Hgk Hkey Hgen).
  5: { rewrite (run_completed sv id w job Hjob key narrative
                  Hex Hgk Hkey Hgen).
       cbn [trace]. rewrite !snapshots_app, snapshots_audio_stage. cbn.
       repeat constructor;
         (eapply Hgood; [read_rows Hjob; reflexivity | ..]);
         unfold job_updates; cbn; rewrite ?Hpending, ?Hzero, ?Herror;
         try done; try lia;
         try (split; [by intros [? ?] | done]).
       intros _. read_rows Hjob. cbn.
       change (sum_processingJobId (summary_row narrative job (clock w) _))
         with (job_id job).
       rewrite Z.eqb_refl.
       destruct (Storage.select_summary_by_job (db w) (job_id job));
         by eexists. }
  all: cbn; repeat constructor;
    (eapply Hgood; [read_rows Hjob; reflexivity | ..]);
    unfold job_updates; cbn; rewrite ?Hpending, ?Hzero, ?Herror;
    try done; try lia;
    try (split; [by intros [? ?] | done]);
    try (split; [done | by eexists]);
    try (by intros m [= <-]).
Qed.

Lemma status_route_along_run_witness :
  Forall (fun d =>
            exists body,
              status_body d 7 = Some body /\
              (is_Some (st_summary body)
               <-> st_status body = lit "completed") /\
              (is_Some (st_error body) <-> st_status body = lit "error") /\
              (0 <= st_progress body <= 100)%Z)
         (db (Scenario.world [] [Scenario.job7 [1%Z]])
          :: snapshots (trace (Scenario.run [] [1%Z]))).
Proof.
  apply (status_route_along_run Scenario.services 7
           (Scenario.world [] [Scenario.job7 [1%Z]]) (Scenario.job7 [1%Z]));
    reflexivity.
Defined.

(** ** From the run to the poller *)

Lemma tick_error (st : Poller.State) (body : StatusBody) (m : jsstring) :
  Poller.interval_set st = true -> Poller.isMounted st = true ->
  st_status body = lit "error" -> st_error body = Some m ->
  truthy m = true ->
  Poller.tick st (Return body)
  = Poller.call (Poller.clearInterval (Poller.count_poll st))
      (Poller.onError m).
Proof.
  intros Hset Hmounted Hstatus Herror Hm.
  unfold Poller.tick. rewrite Hset.
  unfold Poller.callback. cbn [Poller.count_poll Poller.isMounted].
  rewrite Hmounted. cbn [negb].
  unfold Poller.on_status. rewrite Hstatus, Herror.
  change (bool_decide (lit "error" = lit "extracting")) with false.
  change (bool_decide (lit "error" = lit "processing")) with false.
  change (bool_decide (lit "error" = lit "summarizing")) with false.
  change (bool_decide (lit "error" = lit "converting")) with false.
  change (bool_decide (lit "error" = lit "completed")) with false.
  change (bool_decide (lit "error" = lit "error")) with true.
  cbn. by rewrite Hm.
Qed.

Lemma tick_completed (st : Poller.State) (body : StatusBody)
    (summary : SummaryView) :
  Poller.interval_set st = true -> Poller.isMounted st = true ->
  st_status body = lit "completed" -> st_summary body = Some summary ->
  Poller.tick st (Return body)
  = Poller.call
      (Poller.clearInterval (Poller.setProgress (Poller.count_poll st) 100))
      (Poller.onProcessingComplete summary).
Proof.
  intros Hset Hmounted Hstatus Hsummary.
  unfold Poller.tick. rewrite Hset.
  unfold Poller.callback. cbn [Poller.count_poll Poller.isMounted].
  rewrite Hmounted. cbn [negb].
  unfold Poller.on_status. rewrite Hstatus, Hsummary.
  change (bool_decide (lit "completed" = lit "extracting")) with false.
  change (bool_decide (lit "completed" = lit "processing")) with false.
  change (bool_decide (lit "completed" = lit "summarizing")) with false.
  change (bool_decide (lit "completed" = lit "converting")) with false.
  change (bool_decide (lit "completed" = lit "completed")) with true.
  reflexivity.
Qed.

(** Server and client together: once the run of a job without an earlier
    summary has ended, the first poll of a running, mounted poller gets an
    answer on which it stops for good, after calling the completion
    handler with the summary the run returned, or the failure handler with
    the very message the run was rejected with. *)
Theorem first_poll_after_run_stops
    (sv : Services) (id : Z) (w : World) (job : ProcessingJob)
    (st : Poller.State) (later : list (Outcome StatusBody)) :
  Storage.select_job (db w) id = Some job ->
  Storage.select_summary_by_job (db w) id = None ->
  Poller.interval_set st = true ->
  Poller.isMounted st = true ->
  let r := processDocuments sv id w in
  exists body,
    status_body (db (final r)) id = Some body /\
    Poller.calls (Poller.tick st (Return body))
    = Poller.calls st ++ [expected_call r] /\
    Poller.interval_set (Poller.tick st (Return body)) = false /\
    Poller.run later (Poller.tick st (Return body))
    = Poller.tick st (Return body).
Proof.
  intros Hjob Hnone Hset Hmounted r. subst r.
  assert (Hid : job_id job = id) by (by apply select_job_id with (d := db w)).
  assert (Herr : forall d j m,
    Storage.select_job d id = Some j -> job_status j = error ->
    job_error j = Some m -> truthy m = true ->
    exists body,
      status_body d id = Some body /\
      Poller.calls (Poller.tick st (Return body))
      = Poller.calls st ++ [Poller.onError m] /\
      Poller.interval_set (Poller.tick st (Return body)) = false /\
      Poller.run later (Poller.tick st (Return body))
      = Poller.tick st (Return body)).
  { intros d j m Hj Hst Hm Ht. eexists.
    split; [by apply status_body_of_row|].
    rewrite (tick_error st _ m Hset Hmounted); cbn;
      rewrite ?Hst, ?Hm; cbn; rewrite ?Ht; try done.
    repeat split. by apply poller_run_stopped. }
  destruct (run_cases sv w job)
    as [Hnil | [[Hne Hall] | [Hex [Hnokey |
         (key & Hgk & Hkey & [[e Hgen] | [narrative Hgen]])]]]].
  1: rewrite (run_no_uploads sv id w job Hjob Hnil).
  2: rewrite (run_no_text sv id w job Hjob Hne Hall).
  3: rewrite (run_no_key sv id w job Hjob Hex Hnokey).
  4: rewrite (run_summary_failed sv id w job Hjob key e Hex Hgk Hkey Hgen).
  5: { rewrite (run_completed sv id w job Hjob key narrative
                  Hex Hgk Hkey Hgen).
       cbn [final outcome db with_db expected_call].
       eexists. split.
       { apply status_body_of_row. read_rows Hjob. reflexivity. }
       match goal with
       | |- context [Poller.onProcessingComplete ?v] =>
           rewrite (tick_completed st _ v Hset Hmounted); cbn
       end.
       - repeat split. by apply poller_run_stopped.
       - reflexivity.
       - read_rows Hjob. rewrite Hid, Hnone.
         change (sum_processingJobId
                   (summary_row narrative job (clock w) _))
           with (job_id job).
         rewrite Hid, Z.eqb_refl. reflexivity. }
  all: cbn [final outcome db with_db expected_call];
    eapply Herr; [read_rows Hjob; reflexivity | reflexivity.. ].
Qed.

Lemma first_poll_after_run_stops_witness :
  exists body,
    status_body (db (final (Scenario.run [] [2%Z]))) 7 = Some body /\
    Poller.calls (Poller.tick Poller.started (Return body))
    = [] ++ [expected_call (Scenario.run [] [2%Z])] /\
    Poller.interval_set (Poller.tick Poller.started (Return body)) = false /\
    Poller.run [Return Scenario.completed_without_summary]
      (Poller.tick Poller.started (Return body))
    = Poller.tick Poller.started (Return body).
Proof.
  apply (first_poll_after_run_stops Scenario.services 7
           (Scenario.world [] [Scenario.job7 [2%Z]]) (Scenario.job7 [2%Z])
           Poller.started [Return Scenario.completed_without_summary]);
    reflexivity.
Defined.

(** ** The audio file of a run *)






(** ** The settings routes *)

(** With both environment keys set, GET /api/settings/api-keys answers
    the environment keys and makes them the stored keys; a second call
    finds them stored and writes nothing. *)
Theorem env_keys_are_stored_once
    (sv : Services) (w : World) (g e : jsstring) :
  GEMINI_API_KEY sv = Some g -> truthy g = true ->
  ELEVENLABS_API_KEY sv = Some e -> truthy e = true ->
  let r := get_api_settings_api_keys sv w in
  let answer := {| body_gemini := g; body_elevenlabs := e |} in
  outcome r = Return answer /\
  (exists row,
     outcome (Storage.getApiKeys (final r)) = Return (Some row) /\
     keys_of_row row = answer) /\
  get_api_settings_api_keys sv (final r) = mkResult (Return answer) (final r) [].
Proof.
  intros Hg Htg He Hte r answer. subst r answer.
  assert (Hsame : forall w0 row,
    head (take 1 (apiKeys (db w0))) = Some row ->
    key_gemini row = g -> key_elevenlabs row = e ->
    get_api_settings_api_keys sv w0
    = mkResult (Return {| body_gemini := g; body_elevenlabs := e |}) w0 []).
  { intros w0 row Hrow Hrg Hre. unfold get_api_settings_api_keys.
    rewrite Hg, He. cbn. rewrite Htg, Hte. cbn. rewrite Hrow. cbn.
    rewrite !bool_decide_eq_false_2 by (intros Hne; by apply Hne). by cbn. }
  set (fresh := Storage.new_apiKey {| ins_gemini := g; ins_elevenlabs := e |}
                  (clock w) (Storage.delete_apiKeys (db w))).
  set (w' := with_db w (Storage.insert_apiKey fresh
                          (Storage.delete_apiKeys (db w)))).
  assert (Hsaved :
    get_api_settings_api_keys sv w
    = mkResult (Return {| body_gemini := g; body_elevenlabs := e |}) w' [] ->
    outcome (get_api_settings_api_keys sv w)
    = Return {| body_gemini := g; body_elevenlabs := e |} /\
    (exists row,
       outcome (Storage.getApiKeys (final (get_api_settings_api_keys sv w)))
       = Return (Some row) /\
       keys_of_row row = {| body_gemini := g; body_elevenlabs := e |}) /\
    get_api_settings_api_keys sv (final (get_api_settings_api_keys sv w))
    = mkResult (Return {| body_gemini := g; body_elevenlabs := e |})
        (final (get_api_settings_api_keys sv w)) []).
  { intros ->. cbn. split; [done|]. split; [by exists fresh|].
    by apply (Hsame w' fresh). }
  destruct (head (take 1 (apiKeys (db w)))) as [row|] eqn:Hrow.
  - destruct (decide (key_gemini row = g /\ key_elevenlabs row = e))
      as [[Hrg Hre]|Hdiff].
    + rewrite (Hsame w row Hrow Hrg Hre). cbn.
      split; [done|]. split.
      * exists row. rewrite Hrow. split; [done|].
        unfold keys_of_row. by rewrite Hrg, Hre.
      * by apply (Hsame w row).
    + apply Hsaved. unfold get_api_settings_api_keys.
      rewrite Hg, He. cbn. rewrite Htg, Hte. cbn. rewrite Hrow. cbn.
      assert (Hb : bool_decide (key_gemini row <> g)
                   || bool_decide (key_elevenlabs row <> e) = true).
      { destruct (decide (key_gemini row = g)) as [Hrg|Hrg].
        - rewrite (bool_decide_eq_false_2 _ (fun H => H Hrg)).
          apply bool_decide_eq_true_2. intros Hre. by apply Hdiff.
        - by rewrite (bool_decide_eq_true_2 _ Hrg). }
      rewrite Hb. by cbn.
  - apply Hsaved. unfold get_api_settings_api_keys.
    rewrite Hg, He. cbn. rewrite Htg, Hte. cbn. rewrite Hrow. by cbn.
Qed.

Lemma env_keys_are_stored_once_witness :
  outcome (get_api_settings_api_keys Sample.services
             (Scenario.world [Scenario.rejected_keys] []))
  = Return {| body_gemini := lit "g"; body_elevenlabs := lit "e" |} /\
  (exists row,
     outcome (Storage.getApiKeys
                (final (get_api_settings_api_keys Sample.services
                          (Scenario.world [Scenario.rejected_keys] []))))
     = Return (Some row) /\
     keys_of_row row
     = {| body_gemini := lit "g"; body_elevenlabs := lit "e" |}) /\
  get_api_settings_api_keys Sample.services
    (final (get_api_settings_api_keys Sample.services
              (Scenario.world [Scenario.rejected_keys] [])))
  = mkResult
      (Return {| body_gemini := lit "g"; body_elevenlabs := lit "e" |})
      (final (get_api_settings_api_keys Sample.services
                (Scenario.world [Scenario.rejected_keys] []))) [].
Proof.
  exact (env_keys_are_stored_once Sample.services
           (Scenario.world [Scenario.rejected_keys] []) (lit "g") (lit "e")
           eq_refl eq_refl eq_refl eq_refl).
Defined.



(** A body that is not an object with two string fields [gemini] and
    [elevenlabs] is answered 400 by POST /api/settings/api-keys, and the
    stored keys are not touched: the delete of [saveApiKeys] does not
    happen either. *)
Theorem invalid_keys_are_not_saved (body : Json) (w : World) :
  parse_api_keys body = None ->
  post_api_settings_api_keys body w
  = mkResult (Return (KeysBadRequest400 (lit "Invalid API keys data"))) w [].
Proof.
  intros Hparse. unfold post_api_settings_api_keys. by rewrite Hparse.
Qed.

(** ** The two service wrappers *)

(** [generateSummary] never changes the world and calls the model at most
    once; whenever it is rejected, the message is "Failed to generate
    summary: " followed by the cause, and without a usable key the cause is
    "Gemini API key is required" and the model is not called. *)
Theorem generateSummary_rejections
    (sv : Services) (documentText : jsstring)
    (userContext : option UserContext) (apiKey : option jsstring)
    (w : World) :
  let r := generateSummary sv documentText userContext apiKey w in
  final r = w /\
  (length (trace r) <= 1)%nat /\
  (forall message,
     outcome r = Throw message ->
     exists cause, message = lit "Failed to generate summary: " ++ cause) /\
  (truthy_opt apiKey = false ->
   outcome r = Throw (lit "Failed to generate summary: "
                      ++ lit "Gemini API key is required") /\
   trace r = []).
Proof.
  intros r. subst r.
  destruct (truthy_opt apiKey) eqn:Hkey.
  - destruct apiKey as [key|]; [|done]. cbn in Hkey.
    rewrite (generateSummary_run sv documentText userContext key w Hkey).
    cbn. split; [done|]. split; [lia|]. split; [|done].
    intros message. destruct (generateContent sv key _); [done|].
    intros [= <-]. by eexists.
  - unfold generateSummary. cbn. rewrite Hkey. cbn.
    split; [done|]. split; [lia|]. split; [|done].
    intros message [= <-]. by eexists.
Qed.


(** ** The prompt *)

Lemma context_line_drop_empty (label : string) (field : option jsstring) :
  context_line label (drop_empty field) = context_line label field.
Proof. by destruct field as [[|c s]|]. Qed.

(** The prompt ends with the document text, after a head that does not
    depend on it; a context field that is the empty string weighs as
    much as an absent one; and a non-empty field is quoted whole, after
    its label. *)
Theorem prompt_carries_context
    (sv : Services) (documentText : jsstring) (c : UserContext) :
  (forall userContext,
     build_prompt sv documentText userContext
     = build_prompt sv [] userContext ++ documentText) /\
  build_prompt sv documentText (Some (normalized c))
  = build_prompt sv documentText (Some c) /\
  (forall q,
     question c = Some q -> truthy q = true ->
     exists before after,
       build_prompt sv documentText (Some c)
       = before ++ lit "Question being explored: " ++ q ++ nl ++ after).
Proof.
  split; [|split].
  - intros userContext. unfold build_prompt.
    rewrite app_nil_r. by rewrite <- !app_assoc.
  - unfold build_prompt, contextPrompt, normalized. cbn.
    by rewrite !context_line_drop_empty.
  - intros q Hq Ht. unfold build_prompt, contextPrompt.
    unfold context_line at 1. rewrite Hq. cbn [truthy_opt default from_option
      id]. rewrite Ht.
    exists (SYSTEM_PROMPT sv ++ nl ++ nl ++ lit "USER CONTEXT:" ++ nl).
    eexists. rewrite <- !app_assoc. reflexivity.
Qed.

(** ** More on title and description *)

Lemma split_Forall (P : N -> Prop) (sep : N) (s : jsstring) :
  Forall P s -> Forall (Forall P) (split sep s).
Proof.
  induction 1 as [|c s Hc _ IH]; simpl; [by repeat constructor|].
  destruct (c =? sep).
  - by constructor.
  - destruct (split sep s) as [|l ls]; [by repeat constructor|].
    inversion IH; subst. by repeat constructor.
Qed.

(** A narrative without a single character that is not white space (the
    empty narrative included) gets the default title and the default
    description. *)
Theorem blank_narrative_gets_defaults (text : jsstring) :
  Forall (fun c => is_space c = true) text ->
  extract_title_description text
  = {| sr_title := default_title; sr_description := default_description;
       sr_text := text |}.
Proof.
  intros Hblank.
  assert (Hlines : summary_lines text = []).
  { unfold summary_lines.
    pose proof (split_Forall _ 10 text Hblank) as Hall.
    induction Hall as [|l ls Hl _ IH]; simpl; [done|].
    assert (Hnb : nonblank l = false).
    { destruct (nonblank l) eqn:E; [|done].
      apply nonblank_spec, Exists_exists in E as (c & Hin & Hc).
      rewrite Forall_forall in Hl. specialize (Hl c Hin). congruence. }
    by rewrite Hnb. }
  unfold extract_title_description. rewrite Hlines. reflexivity.
Qed.

Lemma blank_narrative_gets_defaults_witness :
  extract_title_description (lit "  " ++ nl ++ nl)
  = {| sr_title := default_title; sr_description := default_description;
       sr_text := lit "  " ++ nl ++ nl |}.
Proof.
  apply (blank_narrative_gets_defaults (lit "  " ++ nl ++ nl)).
  vm_compute. repeat constructor.
Defined.

(** The description is never empty. The title is empty in one case only:
    when the first non-blank line is a [#] followed by nothing but white
    space. *)
Theorem title_and_description_emptiness (text : jsstring) :
  let r := extract_title_description text in
  sr_description r <> [] /\
  (sr_title r = [] <->
   exists ws, head (summary_lines text) = Some (35 :: ws) /\
              Forall (fun c => is_space c = true) ws).
Proof.
  intros r. subst r.
  destruct (extract_title_description_spec text)
    as (_ & _ & Hdesc & _).
  split.
  - destruct (summary_lines text !! 2%nat) as [third|] eqn:E3.
    + destruct Hdesc as [Hshort Hlong].
      pose proof (summary_lines_nonblank text) as Hnb.
      rewrite Forall_forall in Hnb.
      pose proof (nonblank_truthy third
                    (Hnb third (list_elem_of_lookup_2 _ _ _ E3))) as Ht.
      destruct (decide (length third <= 200)%nat) as [Hle|Hgt].
      * rewrite (Hshort Hle). by destruct third.
      * rewrite (Hlong ltac:(lia)). intros Heq.
        apply (f_equal length) in Heq. rewrite length_app in Heq.
        change (length (lit "...")) with 3%nat in Heq. simpl in Heq. lia.
    + rewrite Hdesc. by vm_compute.
  - unfold extract_title_description. cbn [sr_title].
    pose proof (summary_lines_nonblank text) as Hnb.
    destruct (summary_lines text) as [|first rest]; cbn [head].
    + split; [by vm_compute | by intros (ws & [=] & _)].
    + apply Forall_cons in Hnb as [Hfirst _].
      apply nonblank_truthy in Hfirst.
      destruct first as [|c line]; [done|]. unfold strip_heading.
      destruct (N.eqb_spec c 35) as [->|Hc].
      * split.
        -- intros Hnil. exists line. split; [done|].
           by apply skip_space_nil_inv.
        -- intros (ws & [= <-] & Hws). by apply skip_space_all.
      * split; [done|]. intros (ws & [= ->] & _). done.
Qed.

(** ** The poller over a whole run *)




(** A fetch that fails stops a running, mounted poller: the failure
    handler is called once with the fixed message, the interval is
    cleared, and nothing that arrives later is looked at. *)
Theorem poller_fetch_failure_stops
    (st : Poller.State) (e : jsstring) (later : list (Outcome StatusBody)) :
  Poller.interval_set st = true ->
  Poller.isMounted st = true ->
  let st' := Poller.tick st (Throw e) in
  Poller.calls st'
  = Poller.calls st
    ++ [Poller.onError
          (lit "Failed to get processing status. Please try again.")] /\
  Poller.interval_set st' = false /\
  Poller.run later st' = st'.
Proof.
  intros Hset Hmounted st'. subst st'.
  unfold Poller.tick. rewrite Hset. unfold Poller.callback.
  cbn [Poller.count_poll Poller.isMounted]. rewrite Hmounted. cbn.
  repeat split. by apply poller_run_stopped.
Qed.

Lemma poller_fetch_failure_stops_witness :
  Poller.calls (Poller.tick Poller.started (Throw (lit "502")))
  = [] ++ [Poller.onError
             (lit "Failed to get processing status. Please try again.")] /\
  Poller.interval_set (Poller.tick Poller.started (Throw (lit "502")))
  = false /\
  Poller.run [Return Scenario.failed_response]
    (Poller.tick Poller.started (Throw (lit "502")))
  = Poller.tick Poller.started (Throw (lit "502")).
Proof.
  exact (poller_fetch_failure_stops Poller.started (lit "502")
           [Return Scenario.failed_response] eq_refl eq_refl).
Defined.

(** Cancellation: after the cleanup of the effect nothing is polled and
    no handler is called, whatever arrives; and an answer that arrives
    for a view that is no longer mounted changes neither what is shown
    nor the handler calls. *)
Theorem poller_cleanup_cancels
    (st : Poller.State) (fetches : list (Outcome StatusBody))
    (fetched : Outcome StatusBody) :
  Poller.run fetches (Poller.cleanup st) = Poller.cleanup st /\
  (Poller.isMounted st = false ->
   let st' := Poller.tick st fetched in
   Poller.calls st' = Poller.calls st /\
   Poller.status st' = Poller.status st /\
   Poller.description st' = Poller.description st /\
   Poller.progress st' = Poller.progress st /\
   Poller.interval_set st' = Poller.interval_set st).
Proof.
  split; [by apply poller_run_stopped|].
  intros Hunmounted st'. subst st'. unfold Poller.tick.
  destruct (Poller.interval_set st) eqn:Hset; [|by rewrite Hset].
  unfold Poller.callback. cbn [Poller.count_poll Poller.isMounted].
  rewrite Hunmounted. by cbn.
Qed.

(** ** The job a request creates *)

